(** * QtNodes::Node (src/Node.cpp): data propagation, persistence and
    visual-refresh bookkeeping of one node of the dataflow-graph editor.

    The member functions of [Node] are embedded as computations of a small
    state-and-fault monad over a [World]: the heap of nodes, the heap of
    connections, the generator behind [QUuid::createUuid] and the sequence of
    calls made on the collaborators of the node (data model, graphics object,
    geometry, connections).  Calling a member through a null or dangling
    pointer and indexing a vector out of range are faults; binding what a
    pointer points to to a reference, as [nodeGraphicsObject()] and the
    emission of [killConnection] do, reads nothing and is none. *)

From Stdlib Require Import ZArith String Ascii.
From Stdlib.Strings Require Import Byte.
From stdpp Require Import gmap strings list fin_maps.

#[local] Set Warnings "-register-all".
#[local] Open Scope Z_scope.

(** ** The toolkit values that Node.cpp touches

    [QPointF], [QUuid] and the JSON container are classes of the host toolkit
    (Qt), not of this repository; they are modelled after the toolkit's
    documented behaviour, as far as Node.cpp uses them. *)

Module Qt.

(** A [qreal] (C++ [double]) is carried as its binary64 bit pattern: Node.cpp
    never computes on a coordinate, it only moves it between the graphics item
    and the JSON container.  [0.0] is the all-zero pattern. *)
Definition qreal : Type := Z.
Definition qreal_zero : qreal := 0.

Record QPointF := mkQPointF { px : qreal; py : qreal }.

(** *** QUuid *)

(** The sixteen bytes of a UUID in printing order: [data1] (32 bits), [data2]
    and [data3] (16 bits each) most significant byte first, then [data4[0..7]]. *)
Record QUuid := mkQUuid {
  data1 : byte * byte * byte * byte;
  data2 : byte * byte;
  data3 : byte * byte;
  data4 : byte * byte * byte * byte * byte * byte * byte * byte
}.

(** [QUuid()]: the null UUID. *)
Definition null_uuid : QUuid :=
  mkQUuid (x00, x00, x00, x00) (x00, x00) (x00, x00)
          (x00, x00, x00, x00, x00, x00, x00, x00).

Definition hex_digit (n : N) : ascii :=
  (if n <? 10 then ascii_of_N (48 + n) else ascii_of_N (87 + n))%N.

Definition hex_hi (b : byte) : ascii := hex_digit (Byte.to_N b / 16)%N.
Definition hex_lo (b : byte) : ascii := hex_digit (Byte.to_N b mod 16)%N.

(** [QUuid::toString()]: braces, lower-case digits, dashes after the fields. *)
Definition hex2 (b : byte) (k : string) : string :=
  String (hex_hi b) (String (hex_lo b) k).

Definition uuid_toString (u : QUuid) : string :=
  let '(a0, a1, a2, a3) := data1 u in
  let '(b0, b1) := data2 u in
  let '(c0, c1) := data3 u in
  let '(d0, d1, d2, d3, d4, d5, d6, d7) := data4 u in
  String "{"
    (hex2 a0 (hex2 a1 (hex2 a2 (hex2 a3 (String "-"
    (hex2 b0 (hex2 b1 (String "-"
    (hex2 c0 (hex2 c1 (String "-"
    (hex2 d0 (hex2 d1 (String "-"
    (hex2 d2 (hex2 d3 (hex2 d4 (hex2 d5 (hex2 d6 (hex2 d7
    (String "}" EmptyString))))))))))))))))))))).

Definition from_hex_digit (c : ascii) : option N :=
  let n := N_of_ascii c in
  (if (48 <=? n) && (n <=? 57) then Some (n - 48)
   else if (97 <=? n) && (n <=? 102) then Some (n - 87)
   else if (65 <=? n) && (n <=? 70) then Some (n - 55)
   else None)%N.

(** Two hexadecimal digits make one byte; the rest of the text is returned. *)
Definition from_hex2 (s : string) : option (byte * string) :=
  match s with
  | String h (String l rest) =>
      match from_hex_digit h, from_hex_digit l with
      | Some hi, Some lo =>
          match Byte.of_N (16 * hi + lo) with
          | Some b => Some (b, rest)
          | None => None
          end
      | _, _ => None
      end
  | _ => None
  end.

Definition expect_dash (s : string) : option string :=
  match s with
  | String "-" rest => Some rest
  | _ => None
  end.

Definition MaxStringUuidLength : nat := 38.

(** The five fields of the UUID text, dashes between them; what follows the
    last field is not looked at. *)
Definition uuid_fields (src : string) : option QUuid :=
  '(a0, s) ← from_hex2 src; '(a1, s) ← from_hex2 s;
  '(a2, s) ← from_hex2 s; '(a3, s) ← from_hex2 s;
  s ← expect_dash s;
  '(b0, s) ← from_hex2 s; '(b1, s) ← from_hex2 s;
  s ← expect_dash s;
  '(c0, s) ← from_hex2 s; '(c1, s) ← from_hex2 s;
  s ← expect_dash s;
  '(d0, s) ← from_hex2 s; '(d1, s) ← from_hex2 s;
  s ← expect_dash s;
  '(d2, s) ← from_hex2 s; '(d3, s) ← from_hex2 s;
  '(d4, s) ← from_hex2 s; '(d5, s) ← from_hex2 s;
  '(d6, s) ← from_hex2 s; '(d7, _) ← from_hex2 s;
  Some (mkQUuid (a0, a1, a2, a3) (b0, b1) (c0, c1)
                (d0, d1, d2, d3, d4, d5, d6, d7)).

Definition skip_brace (text : string) : string :=
  match text with
  | String "{" rest => rest
  | _ => text
  end.

(** The reader of the UUID text: an opening brace is optional. *)
Definition uuid_fromHex (text : string) : option QUuid :=
  uuid_fields (skip_brace text).

(** [QUuid(QString)]: the text is cut to the length of a printed UUID and
    read; a text that cannot be read gives the null UUID. *)
Definition uuid_fromString (text : string) : QUuid :=
  default null_uuid (uuid_fromHex (substring 0 MaxStringUuidLength text)).

(** *** The JSON container *)

(** A JSON value; an object maps member names to values. *)
Inductive QJsonValue :=
  | JNull
  | JBool (b : bool)
  | JDouble (d : qreal)
  | JString (s : string)
  | JArray (l : list QJsonValue)
  | JObject (o : gmap string QJsonValue)
  | JUndefined.

Abbreviation QJsonObject := (gmap string QJsonValue).

(** [json[key]] on a const object: the member, or Undefined when absent. *)
Definition value (json : QJsonObject) (key : string) : QJsonValue :=
  default JUndefined (json !! key).

(** [QJsonValue::toString()], [toObject()], [toDouble()]: the payload when the
    value has that type, otherwise the empty string, the empty object, 0.0. *)
Definition toString (v : QJsonValue) : string :=
  match v with JString s => s | _ => EmptyString end.

Definition toObject (v : QJsonValue) : QJsonObject :=
  match v with JObject o => o | _ => ∅ end.

Definition toDouble (v : QJsonValue) : qreal :=
  match v with JDouble d => d | _ => qreal_zero end.

End Qt.

Import Qt.

(** ** Ports *)

Module PortType.
Inductive t := None | In | Out.
End PortType.

(** [PortIndex] is the C++ [int]. *)
Abbreviation PortIndex := Z.

Definition INVALID : PortIndex := -1.

(** Conversion of an integer value to [int] (32 bits, two's complement). *)
Definition to_int (z : Z) : Z := (z + 2 ^ 31) mod 2 ^ 32 - 2 ^ 31.

(** ** The collaborators of a node

    The node data model is the abstract class that user models implement; its
    virtual members are the fields of this interface, acting on the state
    [Model] of a model instance.  The layout engine behind
    [NodeGeometry::recalculateSize] and the coordinate transform of the
    graphics item belong to the toolkit side and are taken as given. *)
Class Collaborators := {
  (** the values held by [std::shared_ptr<NodeData>] (the null pointer included) *)
  NodeData : Type;
  NodeDataType : Type;
  (** [NodeDataType()] *)
  defaultDataType : NodeDataType;
  Model : Type;
  QWidget : Type;
  outData : Model → PortIndex → NodeData;
  setInData : list NodeData → PortIndex → Model → Model;
  (** [nPorts] returns an [unsigned int] *)
  nPorts : Model → PortType.t → Z;
  model_save : Model → QJsonObject;
  model_restore : QJsonObject → Model → Model;
  embeddedWidget : Model → option QWidget;
  (** the effect of [QWidget::adjustSize] on the widget owned by the model *)
  adjustSize : QWidget → Model → Model;
  (** what [NodeGeometry::recalculateSize] computes from the model (captions,
      data, embedded widget size) and the port counts known to the geometry *)
  Layout : Type;
  layout : Model → Z → Z → Layout;
  QTransform : Type;
  (** [t.inverted().map(p)] *)
  inverted_map : QTransform → QPointF → QPointF;
  (** where [NodeGeometry] keeps the dragging position before any drag *)
  initialDraggingPos : QPointF
}.

Section Embedding.
Context `{Collaborators}.

(** *** Connection *)

(** [TypeConverter] is a [std::function], empty ([nullptr]) or a function. *)
Abbreviation TypeConverter := (option (NodeData → NodeData)).

(** Modelled from the spec: Connection.hpp is not part of Node.cpp; a
    connection is a directed edge between an output port of one node and an
    input port of another, optionally carrying a type-converting function.  An
    end that is not attached yet is the null pointer. *)
Record Connection := mkConnection {
  _outNode : option positive;
  _outPortIndex : PortIndex;
  _inNode : option positive;
  _inPortIndex : PortIndex;
  _converter : TypeConverter
}.

Definition getNode (c : Connection) (portType : PortType.t) : option positive :=
  match portType with
  | PortType.In => _inNode c
  | PortType.Out => _outNode c
  | PortType.None => None
  end.

Definition getPortIndex (c : Connection) (portType : PortType.t) : PortIndex :=
  match portType with
  | PortType.In => _inPortIndex c
  | PortType.Out => _outPortIndex c
  | PortType.None => INVALID
  end.

Definition getTypeConverter (c : Connection) : TypeConverter := _converter c.

(** *** NodeState *)

Inductive ReactToConnectionState := REACTING | NOT_REACTING.

(** [ConnectionPtrSet]: connection pointers keyed by the connection's id, in
    the order in which the container enumerates them. *)
Abbreviation ConnectionPtrSet := (list (QUuid * positive)).

(** Modelled from the spec: NodeState.hpp is not part of Node.cpp; the node
    state is the per-node table of active connections keyed by port type and
    index, plus the reacting flag and type used for drag-and-drop feedback. *)
Record NodeState := mkNodeState {
  _inConnections : list ConnectionPtrSet;
  _outConnections : list ConnectionPtrSet;
  _reaction : ReactToConnectionState;
  _reactingPortType : PortType.t;
  _reactingDataType : NodeDataType
}.

Definition getEntries (s : NodeState) (portType : PortType.t) : list ConnectionPtrSet :=
  match portType with
  | PortType.In => _inConnections s
  | _ => _outConnections s
  end.

(** [vector[index]]: no element outside the bounds. *)
Definition at_index {A} (v : list A) (index : Z) : option A :=
  if index <? 0 then None else v !! Z.to_nat index.

Definition connections (s : NodeState) (portType : PortType.t) (portIndex : PortIndex)
  : option ConnectionPtrSet :=
  at_index (getEntries s portType) portIndex.

Definition setReaction (reaction : ReactToConnectionState)
    (reactingPortType : PortType.t) (reactingDataType : NodeDataType)
    (s : NodeState) : NodeState :=
  mkNodeState (_inConnections s) (_outConnections s)
              reaction reactingPortType reactingDataType.

(** [vector::resize]: surplus entries are dropped, missing ones are empty. *)
Definition resize_entries (n : Z) (v : list ConnectionPtrSet) : list ConnectionPtrSet :=
  take (Z.to_nat n) v ++ replicate (Z.to_nat n - length v)%nat [].

(** Modelled from the spec: [NodeState::updatePortCount] is not part of
    Node.cpp; the table is resized to the given numbers of ports. *)
Definition NodeState_updatePortCount (nIn nOut : Z) (s : NodeState) : NodeState :=
  mkNodeState (resize_entries nIn (_inConnections s))
              (resize_entries nOut (_outConnections s))
              (_reaction s) (_reactingPortType s) (_reactingDataType s).

(** Modelled from the spec: the constructor of [NodeState] is not part of
    Node.cpp; the table starts with one empty entry per port of the model and
    the node does not react. *)
Definition NodeState_ctor (model : Model) : NodeState :=
  mkNodeState (replicate (Z.to_nat (nPorts model PortType.In)) [])
              (replicate (Z.to_nat (nPorts model PortType.Out)) [])
              NOT_REACTING PortType.None defaultDataType.

(** *** NodeGeometry *)

(** Modelled from the spec: NodeGeometry.hpp is not part of Node.cpp; the
    geometry is the cache of the node's visual layout, computed from the model
    and the port counts the geometry knows; it also keeps the dragging
    position. *)
Record NodeGeometry := mkNodeGeometry {
  _layout : Layout;
  _nSources : Z;
  _nSinks : Z;
  _draggingPos : QPointF
}.

(** Modelled from the spec: the members of [NodeGeometry] are not part of
    Node.cpp; the geometry takes its port counts from the model when it is
    constructed and in [updatePortCount], and [recalculateSize] refreshes the
    cached layout from the model and those counts. *)
Definition NodeGeometry_ctor (model : Model) : NodeGeometry :=
  let nSources := nPorts model PortType.Out in
  let nSinks := nPorts model PortType.In in
  mkNodeGeometry (layout model nSources nSinks) nSources nSinks initialDraggingPos.

Definition NodeGeometry_recalculateSize (model : Model) (g : NodeGeometry) : NodeGeometry :=
  mkNodeGeometry (layout model (_nSources g) (_nSinks g))
                 (_nSources g) (_nSinks g) (_draggingPos g).

Definition NodeGeometry_updatePortCount (model : Model) (g : NodeGeometry) : NodeGeometry :=
  mkNodeGeometry (_layout g) (nPorts model PortType.Out) (nPorts model PortType.In)
                 (_draggingPos g).

Definition setDraggingPosition (p : QPointF) (g : NodeGeometry) : NodeGeometry :=
  mkNodeGeometry (_layout g) (_nSources g) (_nSinks g) p.

(** *** NodeGraphicsObject *)

(** Modelled from the spec: NodeGraphicsObject.hpp is not part of Node.cpp;
    of the graphics-scene item the node reads and writes the position and
    reads the scene transform. *)
Record NodeGraphicsObject := mkNodeGraphicsObject {
  pos : QPointF;
  sceneTransform : QTransform
}.

Definition setPos (p : QPointF) (g : NodeGraphicsObject) : NodeGraphicsObject :=
  mkNodeGraphicsObject p (sceneTransform g).

(** *** Node *)

Record Node := mkNode {
  _uid : QUuid;
  _nodeDataModel : Model;
  _nodeState : NodeState;
  _nodeGeometry : NodeGeometry;
  (** a [std::unique_ptr], null until a graphics object is attached *)
  _nodeGraphicsObject : option NodeGraphicsObject
}.

Definition with_uid (u : QUuid) (n : Node) : Node :=
  mkNode u (_nodeDataModel n) (_nodeState n) (_nodeGeometry n) (_nodeGraphicsObject n).

Definition with_model (m : Model) (n : Node) : Node :=
  mkNode (_uid n) m (_nodeState n) (_nodeGeometry n) (_nodeGraphicsObject n).

Definition with_state (s : NodeState) (n : Node) : Node :=
  mkNode (_uid n) (_nodeDataModel n) s (_nodeGeometry n) (_nodeGraphicsObject n).

Definition with_geometry (g : NodeGeometry) (n : Node) : Node :=
  mkNode (_uid n) (_nodeDataModel n) (_nodeState n) g (_nodeGraphicsObject n).

Definition with_graphics (g : option NodeGraphicsObject) (n : Node) : Node :=
  mkNode (_uid n) (_nodeDataModel n) (_nodeState n) (_nodeGeometry n) g.

(** ** The world and the monad of member functions *)

(** The signals of the data model and the slots of the node. *)
Inductive Signal := dataUpdated | embeddedWidgetSizeUpdated | portCountChanged.
Inductive Slot := onDataUpdated_slot | onNodeSizeUpdated_slot | onPortCountChanged_slot.

(** The calls a node makes on its collaborators, and the signal it emits. *)
Inductive Event :=
  | OutData (node : positive) (port : PortIndex)
  | SetInData (node : positive) (nodeData : list NodeData) (port : PortIndex)
  | ModelRestore (node : positive) (json : QJsonObject)
  | AdjustSize (node : positive)
  | SetPos (node : positive) (p : QPointF)
  | SetGeometryChanged (node : positive)
  | Update (node : positive)
  | MoveConnections (node : positive)
  | RecalculateSize (node : positive)
  | GeometryUpdatePortCount (node : positive)
  | StateUpdatePortCount (node : positive) (nIn nOut : Z)
  | ConnectionPropagateData (connection : positive) (nodeData : NodeData)
  | ConnectionMove (connection : positive)
  | KillConnection (node : positive) (connection : positive)
  | Connect (node : positive) (signal : Signal) (slot : Slot).

Record World := mkWorld {
  nodes : gmap positive Node;
  conns : gmap positive Connection;
  (** receiver, signal and slot of every [connect] made on a data model *)
  wiring : list (positive * Signal * Slot);
  (** the results of [QUuid::createUuid], and how many were drawn *)
  entropy : nat → QUuid;
  drawn : nat;
  trace : list Event
}.

(** What makes a member function stop without returning: the null
    [_nodeGraphicsObject], a [Node*] or [Connection*] that is null or refers
    to no object, a null widget, a vector index outside the bounds. *)
Inductive Fault :=
  | NullGraphicsObject
  | NullNode
  | NullConnection
  | NullWidget
  | IndexOutOfRange.

(** A member function returns a value in a new world, or stops at a fault in
    the world reached so far. *)
Inductive Outcome (A : Type) :=
  | Done (a : A) (w : World)
  | Crash (f : Fault) (w : World).
Arguments Done {A} a w.
Arguments Crash {A} f w.

Definition M (A : Type) : Type := World → Outcome A.

#[export] Instance M_ret : MRet M := λ A a w, Done a w.
#[export] Instance M_bind : MBind M := λ A B k m w,
  match m w with
  | Done a w' => k a w'
  | Crash f w' => Crash f w'
  end.

Definition fault {A} (f : Fault) : M A := λ w, Crash f w.

Definition emit (e : Event) : M unit := λ w,
  Done tt (mkWorld (nodes w) (conns w) (wiring w) (entropy w) (drawn w) (trace w ++ [e])).

Definition set_node (p : positive) (n : Node) (w : World) : World :=
  mkWorld (<[p := n]> (nodes w)) (conns w) (wiring w) (entropy w) (drawn w) (trace w).

(** Reading the members of the node a pointer refers to. *)
Definition deref_node (p : positive) : M Node := λ w,
  match nodes w !! p with
  | Some n => Done n w
  | None => Crash NullNode w
  end.

Definition this (self : positive) : M Node := deref_node self.

Definition store (p : positive) (n : Node) : M unit := λ w,
  Done tt (set_node p n w).

(** Writing the members of [*this]. *)
Definition modify (self : positive) (f : Node → Node) : M unit :=
  n ← this self; store self (f n).

Definition deref_conn (p : positive) : M Connection := λ w,
  match conns w !! p with
  | Some c => Done c w
  | None => Crash NullConnection w
  end.

(** [_nodeGraphicsObject->...]: the pointer must not be null. *)
Definition graphicsObject (self : positive) : M NodeGraphicsObject :=
  n ← this self;
  match _nodeGraphicsObject n with
  | Some g => mret g
  | None => fault NullGraphicsObject
  end.

(** [QUuid::createUuid()]: the next UUID of the generator.  The UUIDs are
    random, so the sequence is arbitrary: nothing keeps one from coming
    twice. *)
Definition createUuid : M QUuid := λ w,
  Done (entropy w (drawn w))
       (mkWorld (nodes w) (conns w) (wiring w) (entropy w) (S (drawn w)) (trace w)).

(** [connect(_nodeDataModel.get(), signal, this, slot)] *)
Definition connect (self : positive) (signal : Signal) (slot : Slot) : M unit := λ w,
  Done tt (mkWorld (nodes w) (conns w) (wiring w ++ [(self, signal, slot)])
                   (entropy w) (drawn w) (trace w ++ [Connect self signal slot])).

(** [for (auto x : l) body] *)
Fixpoint for_each {A} (l : list A) (body : A → M unit) : M unit :=
  match l with
  | [] => mret tt
  | x :: l' => body x;; for_each l' body
  end.

(** The values of [index] in [for (index = from; index < to; ++index)]. *)
Definition index_range (from to : Z) : list Z :=
  (λ k : nat, from + Z.of_nat k) <$> seq 0 (Z.to_nat (to - from)).

(** *** Calls on the collaborators *)

Definition geometry_recalculateSize (self : positive) : M unit :=
  emit (RecalculateSize self);;
  modify self (λ n, with_geometry
    (NodeGeometry_recalculateSize (_nodeDataModel n) (_nodeGeometry n)) n).

Definition geometry_updatePortCount (self : positive) : M unit :=
  emit (GeometryUpdatePortCount self);;
  modify self (λ n, with_geometry
    (NodeGeometry_updatePortCount (_nodeDataModel n) (_nodeGeometry n)) n).

Definition state_updatePortCount (self : positive) (nIn nOut : Z) : M unit :=
  emit (StateUpdatePortCount self nIn nOut);;
  modify self (λ n, with_state (NodeState_updatePortCount nIn nOut (_nodeState n)) n).

Definition graphics_setPos (self : positive) (p : QPointF) : M unit :=
  g ← graphicsObject self;
  emit (SetPos self p);;
  modify self (with_graphics (Some (setPos p g))).

Definition graphics_setGeometryChanged (self : positive) : M unit :=
  graphicsObject self;; emit (SetGeometryChanged self).

Definition graphics_update (self : positive) : M unit :=
  graphicsObject self;; emit (Update self).

Definition graphics_moveConnections (self : positive) : M unit :=
  graphicsObject self;; emit (MoveConnections self).

Definition connection_propagateData (c : positive) (nodeData : NodeData) : M unit :=
  deref_conn c;; emit (ConnectionPropagateData c nodeData).

Definition connection_move (c : positive) : M unit :=
  deref_conn c;; emit (ConnectionMove c).

(** [Q_EMIT killConnection] on what [c.second] points to: the signal takes
    the connection by reference, so the pointer is passed on and nothing is
    read through it. *)
Definition killConnection (self : positive) (c : positive) : M unit :=
  emit (KillConnection self c).

(** ** The member functions of Node (Node.cpp) *)

(** [Node::Node]: the members are initialised at [self], the geometry is
    computed, and two signals of the data model are connected
    ([portCountChanged] is not). *)
Definition Node_ctor (self : positive) (dataModel : Model) : M unit :=
  uid ← createUuid;
  store self (mkNode uid dataModel (NodeState_ctor dataModel)
                     (NodeGeometry_ctor dataModel) None);;
  geometry_recalculateSize self;;
  connect self dataUpdated onDataUpdated_slot;;
  connect self embeddedWidgetSizeUpdated onNodeSizeUpdated_slot.

Definition Node_save (self : positive) : M QJsonObject :=
  n ← this self;
  let nodeJson : QJsonObject := ∅ in
  let nodeJson := <["id" := JString (uuid_toString (_uid n))]> nodeJson in
  let nodeJson := <["model" := JObject (model_save (_nodeDataModel n))]> nodeJson in
  let obj : QJsonObject := ∅ in
  g ← graphicsObject self;
  let obj := <["x" := JDouble (px (pos g))]> obj in
  g ← graphicsObject self;
  let obj := <["y" := JDouble (py (pos g))]> obj in
  let nodeJson := <["position" := JObject obj]> nodeJson in
  mret nodeJson.

Definition Node_restore (self : positive) (json : QJsonObject) : M unit :=
  modify self (with_uid (uuid_fromString (toString (value json "id"))));;
  let positionJson := toObject (value json "position") in
  let point := mkQPointF (toDouble (value positionJson "x"))
                         (toDouble (value positionJson "y")) in
  graphics_setPos self point;;
  let modelJson := toObject (value json "model") in
  emit (ModelRestore self modelJson);;
  modify self (λ n, with_model (model_restore modelJson (_nodeDataModel n)) n).

Definition Node_id (self : positive) : M QUuid :=
  n ← this self; mret (_uid n).

Definition reactToPossibleConnection (self : positive)
    (reactingPortType : PortType.t) (reactingDataType : NodeDataType)
    (scenePoint : QPointF) : M unit :=
  g ← graphicsObject self;
  let t := sceneTransform g in
  let nodePoint := inverted_map t scenePoint in
  modify self (λ n, with_geometry (setDraggingPosition nodePoint (_nodeGeometry n)) n);;
  graphics_update self;;
  modify self (λ n, with_state
    (setReaction REACTING reactingPortType reactingDataType (_nodeState n)) n).

Definition resetReactionToConnection (self : positive) : M unit :=
  modify self (λ n, with_state
    (setReaction NOT_REACTING PortType.None defaultDataType (_nodeState n)) n);;
  graphics_update self.

(** [return *_nodeGraphicsObject.get()]: the reference is formed from the
    pointer as it is, null or not; no member of the graphics object is read. *)
Definition nodeGraphicsObject (self : positive) : M (option NodeGraphicsObject) :=
  n ← this self; mret (_nodeGraphicsObject n).

Definition setGraphicsObject (self : positive) (graphics : option NodeGraphicsObject)
  : M unit :=
  modify self (with_graphics graphics);;
  geometry_recalculateSize self.

Definition recalculateVisuals (self : positive) : M unit :=
  graphics_setGeometryChanged self;;
  geometry_recalculateSize self;;
  graphics_update self;;
  graphics_moveConnections self.

(** The loop of [propagateData]: one value per connection, pushed at the back
    of [nodeData]. *)
Fixpoint gather (connections : ConnectionPtrSet) (nodeData : list NodeData)
  : M (list NodeData) :=
  match connections with
  | [] => mret nodeData
  | connection :: rest =>
      c ← deref_conn connection.2;
      match getNode c PortType.Out with
      | Some outNode =>
          let outNodeIndex := getPortIndex c PortType.Out in
          upstream ← deref_node outNode;
          emit (OutData outNode outNodeIndex);;
          let outData0 := outData (_nodeDataModel upstream) outNodeIndex in
          let converter := getTypeConverter c in
          let outData1 := match converter with
                          | Some convert => convert outData0
                          | None => outData0
                          end in
          gather rest (nodeData ++ [outData1])
      | None => fault NullNode
      end
  end.

Definition NodeState_connections (self : positive) (portType : PortType.t)
    (portIndex : PortIndex) : M ConnectionPtrSet :=
  n ← this self;
  match connections (_nodeState n) portType portIndex with
  | Some set => mret set
  | None => fault IndexOutOfRange
  end.

Definition propagateData (self : positive) (inPortIndex : PortIndex) : M unit :=
  connections ← NodeState_connections self PortType.In inPortIndex;
  nodeData ← gather connections [];
  emit (SetInData self nodeData inPortIndex);;
  modify self (λ n, with_model (setInData nodeData inPortIndex (_nodeDataModel n)) n);;
  graphics_setGeometryChanged self;;
  geometry_recalculateSize self;;
  graphics_update self;;
  graphics_moveConnections self;;
  recalculateVisuals self.

Definition onDataUpdated (self : positive) (index : PortIndex) : M unit :=
  n ← this self;
  emit (OutData self index);;
  let nodeData := outData (_nodeDataModel n) index in
  connections ← NodeState_connections self PortType.Out index;
  for_each connections (λ c, connection_propagateData c.2 nodeData).

(** The body of the loop over the port types in [onNodeSizeUpdated]. *)
Definition move_connections (self : positive) (type : PortType.t) : M unit :=
  n ← this self;
  for_each (getEntries (_nodeState n) type) (λ conn_set,
    for_each conn_set (λ pair, connection_move pair.2)).

Definition onNodeSizeUpdated (self : positive) : M unit :=
  n ← this self;
  (if embeddedWidget (_nodeDataModel n) is Some _ then
     match embeddedWidget (_nodeDataModel n) with
     | Some widget =>
         emit (AdjustSize self);;
         modify self (λ n, with_model (adjustSize widget (_nodeDataModel n)) n)
     | None => fault NullWidget
     end
   else mret tt);;
  geometry_recalculateSize self;;
  for_each [PortType.In; PortType.Out] (move_connections self).

(** The body of the loop over the port types in [onPortCountChanged]. *)
Definition remove_connections (self : positive) (portType : PortType.t) : M unit :=
  n ← this self;
  let entries := getEntries (_nodeState n) portType in
  let oldCount := to_int (Z.of_nat (length entries)) in
  let newCount := to_int (nPorts (_nodeDataModel n) portType) in
  for_each (index_range newCount oldCount) (λ index,
    match at_index entries index with
    | Some connections => for_each connections (λ c, killConnection self c.2)
    | None => fault IndexOutOfRange
    end).

Definition onPortCountChanged (self : positive) : M unit :=
  for_each [PortType.In; PortType.Out] (remove_connections self);;
  n ← this self;
  state_updatePortCount self (nPorts (_nodeDataModel n) PortType.In)
                             (nPorts (_nodeDataModel n) PortType.Out);;
  geometry_updatePortCount self;;
  recalculateVisuals self.

(** *** Signal delivery *)

Definition invoke (self : positive) (slot : Slot) (index : PortIndex) : M unit :=
  match slot with
  | onDataUpdated_slot => onDataUpdated self index
  | onNodeSizeUpdated_slot => onNodeSizeUpdated self
  | onPortCountChanged_slot => onPortCountChanged self
  end.

Definition Signal_eqb (a b : Signal) : bool :=
  match a, b with
  | dataUpdated, dataUpdated
  | embeddedWidgetSizeUpdated, embeddedWidgetSizeUpdated
  | portCountChanged, portCountChanged => true
  | _, _ => false
  end.

(** The data model of node [self] emits [signal] (with the port index, for
    [dataUpdated]): the slots connected to it run, in connection order. *)
Definition deliver (self : positive) (signal : Signal) (index : PortIndex) : M unit :=
  λ w,
    for_each (List.filter (λ e, Pos.eqb e.1.1 self && Signal_eqb e.1.2 signal) (wiring w))
             (λ e, invoke e.1.1 e.2 index) w.

End Embedding.

Arguments Done {_ A} a w.
Arguments Crash {_ A} f w.

(** ** Vocabulary of the statements *)

Section Vocabulary.
Context `{Collaborators}.

(** The world where the calls [es] have been made after those of [w]. *)
Definition add_trace (es : list Event) (w : World) : World :=
  mkWorld (nodes w) (conns w) (wiring w) (entropy w) (drawn w) (trace w ++ es).

(** The world in which a member function stopped, normally or not. *)
Definition final {A} (o : Outcome A) : World :=
  match o with Done _ w | Crash _ w => w end.

Definition is_crash {A} (o : Outcome A) : Prop :=
  match o with Done _ _ => False | Crash _ _ => True end.

(** A computation relates every world to the one it stops in by [R]. *)
Definition preserves (R : World → World → Prop) {A} (m : M A) : Prop :=
  ∀ w, R w (final (m w)).

(** Only calls were added: both heaps are as before. *)
Definition only_calls (w w' : World) : Prop := ∃ es, w' = add_trace es w.

(** No node has gained or lost its graphics object. *)
Definition same_attachment (w w' : World) : Prop :=
  ∀ p n, nodes w !! p = Some n →
    ∃ n', nodes w' !! p = Some n'
          ∧ (_nodeGraphicsObject n' = None ↔ _nodeGraphicsObject n = None).

(** The recalculation and repaint cascade of a node. *)
Definition cascade (self : positive) : list Event :=
  [SetGeometryChanged self; RecalculateSize self; Update self; MoveConnections self].

(** The node after [_nodeGeometry.recalculateSize()]. *)
Definition recalc (n : Node) : Node :=
  with_geometry (NodeGeometry_recalculateSize (_nodeDataModel n) (_nodeGeometry n)) n.

(** The cached layout is the one the layout engine gives for the model and
    the port counts as they are now. *)
Definition geometry_current (n : Node) : Prop :=
  _layout (_nodeGeometry n)
  = layout (_nodeDataModel n) (_nSources (_nodeGeometry n)) (_nSinks (_nodeGeometry n)).

Definition apply_converter (converter : option (NodeData → NodeData)) (d : NodeData)
  : NodeData :=
  match converter with
  | Some convert => convert d
  | None => d
  end.

(** What one incoming connection contributes: the upstream node, its output
    port, and the upstream model's output value there, converted when the
    connection carries a converter. *)
Definition incoming (w : World) (connection : QUuid * positive)
  : option (positive * PortIndex * NodeData) :=
  c ← conns w !! connection.2;
  outNode ← getNode c PortType.Out;
  upstream ← nodes w !! outNode;
  let port := getPortIndex c PortType.Out in
  Some (outNode, port,
        apply_converter (getTypeConverter c) (outData (_nodeDataModel upstream) port)).

Definition out_call (s : positive * PortIndex * NodeData) : Event := OutData s.1.1 s.1.2.

(** The connections registered at the ports that a new port count removes. *)
Definition removed (n : Node) (portType : PortType.t) : list positive :=
  (concat (drop (Z.to_nat (nPorts (_nodeDataModel n) portType))
                (getEntries (_nodeState n) portType))).*2.

(** How often [killConnection] was emitted for a connection. *)
Definition is_kill (c : positive) (e : Event) : bool :=
  match e with
  | KillConnection _ c' => Pos.eqb c' c
  | _ => false
  end.

Definition kill_count (c : positive) (es : list Event) : nat :=
  length (List.filter (is_kill c) es).

(** The code after the loop of [propagateData]. *)
Definition after_gather (self : positive) (i : PortIndex) (nodeData : list NodeData)
  : M unit :=
  emit (SetInData self nodeData i);;
  modify self (λ n, with_model (setInData nodeData i (_nodeDataModel n)) n);;
  graphics_setGeometryChanged self;;
  geometry_recalculateSize self;;
  graphics_update self;;
  graphics_moveConnections self;;
  recalculateVisuals self.

(** The node after the embedded widget, if there is one, has adjusted its size. *)
Definition adjusted (n : Node) : Node :=
  match embeddedWidget (_nodeDataModel n) with
  | Some widget => with_model (adjustSize widget (_nodeDataModel n)) n
  | None => n
  end.

(** The point that [restore] reads from the persisted object. *)
Definition restored_point (json : QJsonObject) : QPointF :=
  mkQPointF (toDouble (value (toObject (value json "position")) "x"))
            (toDouble (value (toObject (value json "position")) "y")).

(** The connection an event is a call on, if any. *)
Definition touched_connection (e : Event) : option positive :=
  match e with
  | ConnectionPropagateData c _ | ConnectionMove c | KillConnection _ c => Some c
  | _ => None
  end.

(** The node and port of a call of [outData]. *)
Definition out_data_call (e : Event) : option (positive * PortIndex) :=
  match e with
  | OutData p i => Some (p, i)
  | _ => None
  end.

(** The old port count (the size of the table of a port type) and the new one
    (the model's [nPorts]) are values of an [int]. *)
Definition counts_fit (n : Node) (portType : PortType.t) : Prop :=
  0 ≤ nPorts (_nodeDataModel n) portType < 2 ^ 31
  ∧ Z.of_nat (length (getEntries (_nodeState n) portType)) < 2 ^ 31.

(** A member that is not a string, or is absent. *)
Definition no_string (json : QJsonObject) (key : string) : Prop :=
  ∀ s, json !! key ≠ Some (JString s).



(** The call on the embedded widget in [onNodeSizeUpdated], when the model
    has one. *)
Definition widget_calls (self : positive) (n : Node) : list Event :=
  match embeddedWidget (_nodeDataModel n) with
  | Some _ => [AdjustSize self]
  | None => []
  end.

(** The connections registered at the ports of a type, in table order. *)
Definition registered (n : Node) (portType : PortType.t) : list positive :=
  (concat (getEntries (_nodeState n) portType)).*2.

(** The node after [onPortCountChanged] has updated the port counts of the
    node state and of the geometry. *)
Definition recounted (n : Node) : Node :=
  with_geometry
    (NodeGeometry_updatePortCount (_nodeDataModel n) (_nodeGeometry n))
    (with_state
       (NodeState_updatePortCount (nPorts (_nodeDataModel n) PortType.In)
                                  (nPorts (_nodeDataModel n) PortType.Out)
                                  (_nodeState n)) n).

(** No node was created or destroyed or has changed its identifier, and the
    generator was not used. *)
Definition ids_untouched (w w' : World) : Prop :=
  entropy w' = entropy w ∧ drawn w' = drawn w
  ∧ ∀ p, _uid <$> nodes w' !! p = _uid <$> nodes w !! p.

(** Every identifier in the heap is a result of the generator, and different
    nodes hold the results of different draws. *)
Definition drawn_ids (w : World) : Prop :=
  ∃ draw : positive → nat,
    (∀ p n, nodes w !! p = Some n →
       (draw p < drawn w)%nat ∧ _uid n = entropy w (draw p))
    ∧ (∀ p q, is_Some (nodes w !! p) → is_Some (nodes w !! q) →
         draw p = draw q → p = q).

(** The generator has not returned a UUID twice so far. *)
Definition no_repeat (w : World) : Prop :=
  ∀ i j, (i < j < drawn w)%nat → entropy w i ≠ entropy w j.

(** No two nodes have the same identifier. *)
Definition unique_ids (w : World) : Prop :=
  ∀ p q n m, nodes w !! p = Some n → nodes w !! q = Some m →
    _uid n = _uid m → p = q.

(** One call that returns: of the constructor, for a node at an unused
    address, or of a member function other than [restore]. *)
Inductive member_call : World → World → Prop :=
  | call_ctor self dataModel w w' :
      nodes w !! self = None →
      Node_ctor self dataModel w = Done tt w' → member_call w w'
  | call_save self json w w' :
      Node_save self w = Done json w' → member_call w w'
  | call_id self uid w w' :
      Node_id self w = Done uid w' → member_call w w'
  | call_reactToPossibleConnection self portType dataType scenePoint w w' :
      reactToPossibleConnection self portType dataType scenePoint w = Done tt w' →
      member_call w w'
  | call_resetReactionToConnection self w w' :
      resetReactionToConnection self w = Done tt w' → member_call w w'
  | call_nodeGraphicsObject self g w w' :
      nodeGraphicsObject self w = Done g w' → member_call w w'
  | call_setGraphicsObject self graphics w w' :
      setGraphicsObject self graphics w = Done tt w' → member_call w w'
  | call_propagateData self i w w' :
      propagateData self i w = Done tt w' → member_call w w'
  | call_onDataUpdated self index w w' :
      onDataUpdated self index w = Done tt w' → member_call w w'
  | call_onNodeSizeUpdated self w w' :
      onNodeSizeUpdated self w = Done tt w' → member_call w w'
  | call_onPortCountChanged self w w' :
      onPortCountChanged self w = Done tt w' → member_call w w'
  | call_recalculateVisuals self w w' :
      recalculateVisuals self w = Done tt w' → member_call w w'.

End Vocabulary.

(** ** A concrete model and scene, for running the member functions *)

Module Sample.

(** A model that keeps the values last set on its input port, offers their
    sum on every output port, and may own an embedded widget. *)
Record SumModel := mkSumModel {
  n_in : Z;
  n_out : Z;
  operands : list Z;
  has_widget : bool;
  widget_width : Z
}.

Definition sum_of (l : list Z) : Z := foldr Z.add 0 l.

Definition collaborators : Collaborators := {|
  NodeData := Z;
  NodeDataType := string;
  defaultDataType := EmptyString;
  Model := SumModel;
  QWidget := unit;
  outData m port := sum_of (operands m) + port;
  setInData data port m :=
    mkSumModel (n_in m) (n_out m) data (has_widget m) (widget_width m);
  nPorts m portType :=
    match portType with
    | PortType.In => n_in m
    | PortType.Out => n_out m
    | PortType.None => 0
    end;
  model_save m := <["operands" := JArray (JDouble <$> operands m)]> ∅;
  model_restore json m :=
    match value json "operands" with
    | JArray l => mkSumModel (n_in m) (n_out m) (toDouble <$> l)
                             (has_widget m) (widget_width m)
    | _ => m
    end;
  embeddedWidget m := if has_widget m then Some tt else None;
  adjustSize _ m :=
    mkSumModel (n_in m) (n_out m) (operands m) (has_widget m)
               (8 * Z.of_nat (length (operands m)));
  Layout := Z * Z;
  layout m nSources nSinks :=
    (100 + widget_width m, 20 * Z.max nSources nSinks);
  QTransform := unit;
  inverted_map _ p := p;
  initialDraggingPos := mkQPointF 0 0
|}.

#[local] Existing Instance collaborators.

Definition uuid_of_byte (b : byte) : QUuid :=
  mkQUuid (x00, x00, x00, x00) (x00, x00) (x40, x00)
          (x80, x00, x00, x00, x00, x00, x00, b).

(** The generator gives these UUIDs in turn. *)
Definition sample_entropy (k : nat) : QUuid :=
  uuid_of_byte (default xff (Byte.of_N (N.of_nat k + 1))).

(** Node 1 (a source with operands 3 and 4) feeds input port 0 of node 2
    through the connections 10 (which adds one on the way) and 11. *)
Definition source : Node :=
  mkNode (uuid_of_byte xa1) (mkSumModel 0 1 [3; 4] false 0)
         (mkNodeState [] [[(uuid_of_byte xc1, 10%positive);
                            (uuid_of_byte xc2, 11%positive)]]
                      NOT_REACTING PortType.None EmptyString)
         (mkNodeGeometry (100, 20) 1 0 (mkQPointF 0 0))
         (Some (mkNodeGraphicsObject (mkQPointF 7 9) tt)).

Definition sink_model : SumModel := mkSumModel 1 1 [] true 0.

Definition wires : list (QUuid * positive) :=
  [(uuid_of_byte xc1, 10%positive); (uuid_of_byte xc2, 11%positive)].

Definition sink_with (m : SumModel) (g : option NodeGraphicsObject) : Node :=
  mkNode (uuid_of_byte xa2) m
         (mkNodeState [wires] [[]] NOT_REACTING PortType.None EmptyString)
         (mkNodeGeometry (0, 0) 1 1 (mkQPointF 0 0))
         g.

Definition sink_graphics : NodeGraphicsObject :=
  mkNodeGraphicsObject (mkQPointF 40 50) tt.

Definition sink : Node := sink_with sink_model (Some sink_graphics).

(** What the two connections bring to input port 0 of node 2. *)
Definition sources : list (positive * PortIndex * NodeData) :=
  [(1%positive, 0, 8); (1%positive, 0, 7)].

Definition scene_with (n2 : Node) : World :=
  mkWorld (<[1%positive := source]> (<[2%positive := n2]> ∅))
          (<[10%positive := mkConnection (Some 1%positive) 0 (Some 2%positive) 0
                                          (Some (Z.add 1))]>
           (<[11%positive := mkConnection (Some 1%positive) 0 (Some 2%positive) 0 None]> ∅))
          [(2%positive, dataUpdated, onDataUpdated_slot)]
          sample_entropy 0 [].

Definition scene : World := scene_with sink.

(** The same scene when the model of node 2 has dropped its input port. *)
Definition shrunk_sink : Node :=
  sink_with (mkSumModel 0 1 [] true 0) (Some sink_graphics).

Definition scene_shrunk : World := scene_with shrunk_sink.

Definition bare_sink : Node := sink_with sink_model None.

(** The same scene before a graphics object is attached to node 2. *)
Definition scene_bare : World := scene_with bare_sink.

(** The scene while connection 11 is still being dragged from input port 0
    of node 2: its output end is not attached. *)
Definition scene_draft : World :=
  mkWorld (<[1%positive := source]> (<[2%positive := sink]> ∅))
          (<[10%positive := mkConnection (Some 1%positive) 0 (Some 2%positive) 0
                                          (Some (Z.add 1))]>
           (<[11%positive := mkConnection None INVALID (Some 2%positive) 0 None]> ∅))
          [(2%positive, dataUpdated, onDataUpdated_slot)]
          sample_entropy 0 [].

Definition int_type : NodeDataType := "int".

Definition drag_point : QPointF := mkQPointF 3 4.

(** Node 2 without a graphics object, its model having dropped the input
    port. *)
Definition bare_shrunk_sink : Node := sink_with (mkSumModel 0 1 [] true 0) None.

Definition scene_bare_shrunk : World := scene_with bare_shrunk_sink.

(** A persisted object whose identifier is written in capitals, without
    braces. *)
Definition foreign_json : QJsonObject :=
  <["id" := JString "6F9619FF-8B86-D011-B42D-00C04FC964FF"]> ∅.

(** A scene without nodes or connections. *)
Definition blank : World := mkWorld ∅ ∅ [] sample_entropy 0 [].

(** The same, with a generator that returns one UUID again and again. *)
Definition blank_stuck : World :=
  mkWorld ∅ ∅ [] (λ _, uuid_of_byte x01) 0 [].

End Sample.

(** * Properties *)

(** ** The toolkit values *)

Lemma from_hex2_hex2 (b : byte) (k : string) : from_hex2 (hex2 b k) = Some (b, k).
Proof. destruct b; reflexivity. Qed.

Lemma substring_uuid_toString (u : QUuid) :
  substring 0 MaxStringUuidLength (uuid_toString u) = uuid_toString u.
Proof.
  destruct u as [[[[a0 a1] a2] a3] [b0 b1] [c0 c1] [[[[[[[d0 d1] d2] d3] d4] d5] d6] d7]].
  reflexivity.
Qed.

Lemma uuid_fromHex_toString (u : QUuid) : uuid_fromHex (uuid_toString u) = Some u.
Proof.
  destruct u as [[[[a0 a1] a2] a3] [b0 b1] [c0 c1] [[[[[[[d0 d1] d2] d3] d4] d5] d6] d7]].
  unfold uuid_fromHex, uuid_fields, uuid_toString.
  cbn [data1 data2 data3 data4 skip_brace].
  repeat (rewrite from_hex2_hex2; cbn [mbind option_bind expect_dash]).
  reflexivity.
Qed.

(** Reading back the printed form of a UUID gives the UUID. *)
Lemma uuid_fromString_toString (u : QUuid) : uuid_fromString (uuid_toString u) = u.
Proof.
  unfold uuid_fromString.
  by rewrite substring_uuid_toString, uuid_fromHex_toString.
Qed.

Lemma uuid_fromString_empty : uuid_fromString EmptyString = null_uuid.
Proof. reflexivity. Qed.







Example uuid_fromString_garbage : uuid_fromString "not-a-uuid" = null_uuid.
Proof. reflexivity. Qed.

Example uuid_fromString_no_braces :
  uuid_fromString "6F9619FF-8B86-D011-B42D-00C04FC964FF"
  = mkQUuid (x6f, x96, x19, xff) (x8b, x86) (xd0, x11)
            (xb4, x2d, x00, xc0, x4f, xc9, x64, xff).
Proof. reflexivity. Qed.

Lemma toString_no_string (json : QJsonObject) key :
  no_string json key → toString (value json key) = EmptyString.
Proof.
  intros Hn. unfold value. destruct (json !! key) as [[]|] eqn:E; try reflexivity.
  by destruct (Hn s).
Qed.



(** ** Running the monad *)

(** Unfolding a member function down to lookups in the two heaps. *)
Ltac munfold :=
  unfold Node_ctor, Node_save, Node_restore, Node_id, reactToPossibleConnection,
    resetReactionToConnection, nodeGraphicsObject, setGraphicsObject,
    recalculateVisuals, propagateData, onDataUpdated, NodeState_connections,
    geometry_recalculateSize, geometry_updatePortCount, state_updatePortCount,
    graphics_setPos, graphics_setGeometryChanged, graphics_update,
    graphics_moveConnections, connection_propagateData, connection_move,
    killConnection, graphicsObject, modify, store, this, deref_node, deref_conn,
    createUuid, connect, emit, fault, mbind, M_bind, mret, M_ret.

Ltac mcbn :=
  cbn [nodes conns trace wiring entropy drawn set_node add_trace final
       with_uid with_model with_state with_geometry with_graphics
       _uid _nodeDataModel _nodeState _nodeGeometry _nodeGraphicsObject].

Ltac mlookup :=
  match goal with
  | E : nodes ?w !! ?p = Some _ |- context [nodes ?w !! ?p] => rewrite E
  | E : nodes ?w !! ?p = None |- context [nodes ?w !! ?p] => rewrite E
  | E : conns ?w !! ?p = Some _ |- context [conns ?w !! ?p] => rewrite E
  | E : _nodeGraphicsObject ?n = _ |- context [_nodeGraphicsObject ?n] => rewrite E
  | E : connections ?s ?t ?i = _ |- context [connections ?s ?t ?i] => rewrite E
  | |- context [<[?p := _]> _ !! ?p] => rewrite lookup_insert_eq
  end.

Ltac mrun := munfold; repeat (mcbn; try mlookup).

Ltac mdone :=
  unfold add_trace, set_node, cascade, recalc; mcbn;
  rewrite ?insert_insert_eq, <- ?app_assoc; reflexivity.


Section Facts.
Context `{Collaborators}.

Lemma run_bind {A B} (m : M A) (k : A → M B) w :
  (m ≫= k) w = match m w with Done a w' => k a w' | Crash f w' => Crash f w' end.
Proof. reflexivity. Qed.

Lemma bind_Done_inv {A B} (m : M A) (k : A → M B) w b w' :
  (m ≫= k) w = Done b w' → ∃ a w1, m w = Done a w1 ∧ k a w1 = Done b w'.
Proof. rewrite run_bind. destruct (m w) as [a w1|]; [eauto | discriminate]. Qed.

Lemma this_Done self n w : nodes w !! self = Some n → this self w = Done n w.
Proof. intros E. unfold this, deref_node. by rewrite E. Qed.

Lemma emit_Done e w : emit e w = Done tt (add_trace [e] w).
Proof. reflexivity. Qed.

Lemma add_trace_nil w : add_trace [] w = w.
Proof. destruct w. unfold add_trace. cbn. by rewrite app_nil_r. Qed.

Lemma add_trace_add_trace es1 es2 w :
  add_trace es2 (add_trace es1 w) = add_trace (es1 ++ es2) w.
Proof. unfold add_trace. cbn. by rewrite <- app_assoc. Qed.

Lemma geometry_current_recalc n : geometry_current (recalc n).
Proof. reflexivity. Qed.

Lemma recalculateVisuals_Done self n g w :
  nodes w !! self = Some n → _nodeGraphicsObject n = Some g →
  recalculateVisuals self w
  = Done tt (add_trace (cascade self) (set_node self (recalc n) w)).
Proof. intros E G. mrun. mdone. Qed.

Lemma recalculateVisuals_null self n w :
  nodes w !! self = Some n → _nodeGraphicsObject n = None →
  recalculateVisuals self w = Crash NullGraphicsObject w.
Proof. intros E G. mrun. reflexivity. Qed.


(** The JSON object written by [save] for a node with graphics object [g]. *)
Lemma Node_save_Done self n g w :
  nodes w !! self = Some n → _nodeGraphicsObject n = Some g →
  Node_save self w
  = Done (<["position" := JObject (<["y" := JDouble (py (pos g))]>
                                   (<["x" := JDouble (px (pos g))]> ∅))]>
          (<["model" := JObject (model_save (_nodeDataModel n))]>
           (<["id" := JString (uuid_toString (_uid n))]> ∅))) w.
Proof. intros E G. mrun. reflexivity. Qed.

Lemma Node_save_null self n w :
  nodes w !! self = Some n → _nodeGraphicsObject n = None →
  Node_save self w = Crash NullGraphicsObject w.
Proof. intros E G. mrun. reflexivity. Qed.

Lemma Node_restore_Done self json n g w :
  nodes w !! self = Some n → _nodeGraphicsObject n = Some g →
  Node_restore self json w
  = Done tt (add_trace [SetPos self (restored_point json);
                        ModelRestore self (toObject (value json "model"))]
       (set_node self
          (mkNode (uuid_fromString (toString (value json "id")))
                  (model_restore (toObject (value json "model")) (_nodeDataModel n))
                  (_nodeState n) (_nodeGeometry n)
                  (Some (setPos (restored_point json) g))) w)).
Proof. intros E G. mrun. mdone. Qed.

Lemma Node_restore_null self json n w :
  nodes w !! self = Some n → _nodeGraphicsObject n = None →
  Node_restore self json w
  = Crash NullGraphicsObject
      (set_node self (with_uid (uuid_fromString (toString (value json "id"))) n) w).
Proof. intros E G. mrun. reflexivity. Qed.

Lemma reactToPossibleConnection_Done self portType dataType scenePoint n g w :
  nodes w !! self = Some n → _nodeGraphicsObject n = Some g →
  reactToPossibleConnection self portType dataType scenePoint w
  = Done tt (add_trace [Update self]
       (set_node self
          (with_state (setReaction REACTING portType dataType (_nodeState n))
             (with_geometry
                (setDraggingPosition (inverted_map (sceneTransform g) scenePoint)
                                     (_nodeGeometry n)) n)) w)).
Proof. intros E G. mrun. mdone. Qed.

Lemma reactToPossibleConnection_null self portType dataType scenePoint n w :
  nodes w !! self = Some n → _nodeGraphicsObject n = None →
  reactToPossibleConnection self portType dataType scenePoint w
  = Crash NullGraphicsObject w.
Proof. intros E G. mrun. reflexivity. Qed.

Lemma resetReactionToConnection_Done self n g w :
  nodes w !! self = Some n → _nodeGraphicsObject n = Some g →
  resetReactionToConnection self w
  = Done tt (add_trace [Update self]
       (set_node self
          (with_state (setReaction NOT_REACTING PortType.None defaultDataType
                                   (_nodeState n)) n) w)).
Proof. intros E G. mrun. mdone. Qed.

Lemma resetReactionToConnection_null self n w :
  nodes w !! self = Some n → _nodeGraphicsObject n = None →
  resetReactionToConnection self w
  = Crash NullGraphicsObject
      (set_node self
         (with_state (setReaction NOT_REACTING PortType.None defaultDataType
                                  (_nodeState n)) n) w).
Proof. intros E G. mrun. reflexivity. Qed.

Lemma setGraphicsObject_Done self graphics n w :
  nodes w !! self = Some n →
  setGraphicsObject self graphics w
  = Done tt (add_trace [RecalculateSize self]
       (set_node self (recalc (with_graphics graphics n)) w)).
Proof. intros E. mrun. mdone. Qed.

Lemma Node_ctor_Done self dataModel w :
  Node_ctor self dataModel w
  = Done tt
      (mkWorld (<[self := mkNode (entropy w (drawn w)) dataModel
                                 (NodeState_ctor dataModel)
                                 (NodeGeometry_ctor dataModel) None]> (nodes w))
               (conns w)
               (wiring w ++ [(self, dataUpdated, onDataUpdated_slot);
                             (self, embeddedWidgetSizeUpdated, onNodeSizeUpdated_slot)])
               (entropy w) (S (drawn w))
               (trace w ++ [RecalculateSize self;
                            Connect self dataUpdated onDataUpdated_slot;
                            Connect self embeddedWidgetSizeUpdated onNodeSizeUpdated_slot])).
Proof. mrun. rewrite insert_insert_eq, <- !app_assoc. reflexivity. Qed.

Lemma Node_id_Done self n w : nodes w !! self = Some n → Node_id self w = Done (_uid n) w.
Proof. intros E. mrun. reflexivity. Qed.


(** *** The loops *)

Lemma gather_Done cs : ∀ acc w srcs,
  mapM (incoming w) cs = Some srcs →
  gather cs acc w = Done (acc ++ srcs.*2) (add_trace (out_call <$> srcs) w).
Proof.
  induction cs as [|c cs IH]; intros acc w srcs Hs.
  - cbn in Hs. injection Hs as <-. cbn. by rewrite app_nil_r, add_trace_nil.
  - cbn [mapM] in Hs.
    destruct (incoming w c) as [[[outNode port] d]|] eqn:Ec; [|discriminate].
    cbn [mbind option_bind] in Hs.
    destruct (mapM (incoming w) cs) as [rest|] eqn:Er; [|discriminate].
    cbn in Hs. injection Hs as <-.
    unfold incoming in Ec.
    destruct (conns w !! c.2) as [conn|] eqn:Econn; [|discriminate].
    cbn [mbind option_bind] in Ec.
    destruct (getNode conn PortType.Out) as [p|] eqn:Ep; [|discriminate].
    cbn [mbind option_bind] in Ec.
    destruct (nodes w !! p) as [up|] eqn:Eup; [|discriminate].
    cbn [mbind option_bind] in Ec. injection Ec as <- <- <-.
    cbn [gather]. munfold. mcbn. rewrite Econn, Ep. mcbn. rewrite Eup.
    erewrite IH by (rewrite <- Er; reflexivity).
    unfold add_trace. mcbn. cbn [fmap list_fmap out_call fst snd].
    rewrite <- !app_assoc. reflexivity.
Qed.

(** [gather] changes nothing but the record of calls, however it ends. *)
Lemma gather_only_calls cs : ∀ acc, preserves only_calls (gather cs acc).
Proof.
  induction cs as [|c cs IH]; intros acc w.
  - exists []. cbn. by rewrite add_trace_nil.
  - cbn [gather]. munfold. destruct (conns w !! c.2) as [conn|];
      [|exists []; cbn; by rewrite add_trace_nil].
    destruct (getNode conn PortType.Out) as [p|];
      [|exists []; cbn; by rewrite add_trace_nil].
    destruct (nodes w !! p) as [up|]; [|exists []; cbn; by rewrite add_trace_nil].
    mcbn. match goal with |- only_calls _ (final (gather cs ?a ?w1)) =>
      destruct (IH a w1) as [es Hes] end.
    rewrite Hes. eexists. unfold add_trace. mcbn. rewrite <- app_assoc. reflexivity.
Qed.

(** The faults of [gather] are those of its pointers. *)
Lemma gather_fault cs : ∀ acc w f w',
  gather cs acc w = Crash f w' → f = NullConnection ∨ f = NullNode.
Proof.
  induction cs as [|c cs IH]; intros acc w f w'; [discriminate|].
  cbn [gather]. munfold. destruct (conns w !! c.2) as [conn|]; [|intros [= <- _]; by left].
  destruct (getNode conn PortType.Out) as [p|]; [|intros [= <- _]; by right].
  destruct (nodes w !! p) as [up|]; [|intros [= <- _]; by right].
  apply IH.
Qed.

(** A loop that emits one event for every element of a list. *)
Lemma for_each_emit {A} (event : A → Event) (l : list A) : ∀ w,
  for_each l (λ x, emit (event x)) w = Done tt (add_trace (event <$> l) w).
Proof.
  induction l as [|x l IH]; intros w.
  - cbn. by rewrite add_trace_nil.
  - cbn [for_each]. rewrite run_bind, emit_Done, IH.
    by rewrite add_trace_add_trace.
Qed.

(** A loop that makes one call on every connection of a set. *)
Lemma for_each_live (call : positive → Event) (cs : list (QUuid * positive)) : ∀ w,
  Forall (λ c, is_Some (conns w !! c.2)) cs →
  for_each cs (λ c, deref_conn c.2;; emit (call c.2)) w
  = Done tt (add_trace ((λ c, call c.2) <$> cs) w).
Proof.
  induction cs as [|c cs IH]; intros w Hl.
  - cbn. by rewrite add_trace_nil.
  - inversion Hl as [|? ? [conn Hc] Hl']; subst.
    cbn [for_each]. rewrite run_bind. rewrite run_bind.
    unfold deref_conn at 1. rewrite Hc. rewrite emit_Done. 
    rewrite IH by exact Hl'. by rewrite add_trace_add_trace.
Qed.


Lemma NodeState_connections_Done self portType i n cs w :
  nodes w !! self = Some n → connections (_nodeState n) portType i = Some cs →
  NodeState_connections self portType i w = Done cs w.
Proof. intros E C. mrun. reflexivity. Qed.

Lemma NodeState_connections_inv self portType i cs w w' :
  NodeState_connections self portType i w = Done cs w' →
  w' = w ∧ ∃ n, nodes w !! self = Some n ∧ connections (_nodeState n) portType i = Some cs.
Proof.
  munfold. destruct (nodes w !! self) as [n|]; [|discriminate].
  destruct (connections (_nodeState n) portType i) as [cs'|] eqn:C; [|discriminate].
  intros [= <- <-]. eauto.
Qed.

(** *** propagateData *)

Lemma propagateData_Done self i n g cs srcs w :
  nodes w !! self = Some n → _nodeGraphicsObject n = Some g →
  connections (_nodeState n) PortType.In i = Some cs →
  mapM (incoming w) cs = Some srcs →
  propagateData self i w
  = Done tt
      (add_trace ((out_call <$> srcs) ++ SetInData self srcs.*2 i
                    :: cascade self ++ cascade self)
         (set_node self
            (recalc (with_model (setInData srcs.*2 i (_nodeDataModel n)) n)) w)).
Proof.
  intros E G C S. unfold propagateData.
  rewrite run_bind, (NodeState_connections_Done _ _ _ _ _ _ E C).
  rewrite run_bind, (gather_Done _ _ _ _ S).
  mrun. mdone.
Qed.

(** Without a graphics object the values are gathered and handed to the model,
    and the first call on the graphics object is the null dereference. *)
Lemma propagateData_null self i n cs srcs w :
  nodes w !! self = Some n → _nodeGraphicsObject n = None →
  connections (_nodeState n) PortType.In i = Some cs →
  mapM (incoming w) cs = Some srcs →
  propagateData self i w
  = Crash NullGraphicsObject
      (add_trace ((out_call <$> srcs) ++ [SetInData self srcs.*2 i])
         (set_node self (with_model (setInData srcs.*2 i (_nodeDataModel n)) n) w)).
Proof.
  intros E G C S. unfold propagateData.
  rewrite run_bind, (NodeState_connections_Done _ _ _ _ _ _ E C).
  rewrite run_bind, (gather_Done _ _ _ _ S).
  mrun. mdone.
Qed.

Lemma propagateData_unfold self i :
  propagateData self i
  = (connections ← NodeState_connections self PortType.In i;
     nodeData ← gather connections [];
     after_gather self i nodeData).
Proof. reflexivity. Qed.

Lemma after_gather_attached self i d n g w :
  nodes w !! self = Some n → _nodeGraphicsObject n = Some g →
  ∃ w', after_gather self i d w = Done tt w'.
Proof. intros E G. eexists. unfold after_gather. mrun. reflexivity. Qed.

Lemma after_gather_bare self i d n w :
  nodes w !! self = Some n → _nodeGraphicsObject n = None →
  ∃ w', after_gather self i d w = Crash NullGraphicsObject w'.
Proof. intros E G. eexists. unfold after_gather. mrun. reflexivity. Qed.

(** With a graphics object attached, no fault of [propagateData] is a null
    graphics object. *)
Lemma propagateData_attached self i n g w f w' :
  nodes w !! self = Some n → _nodeGraphicsObject n = Some g →
  propagateData self i w = Crash f w' → f ≠ NullGraphicsObject.
Proof.
  intros E G. rewrite propagateData_unfold, run_bind.
  destruct (NodeState_connections self PortType.In i w) as [cs w1|f1 w1] eqn:C.
  - apply NodeState_connections_inv in C as [-> _]. rewrite run_bind.
    destruct (gather cs [] w) as [d w2|f2 w2] eqn:Eg.
    + destruct (gather_only_calls cs [] w) as [es Hes]. rewrite Eg in Hes. cbn in Hes.
      subst w2. destruct (after_gather_attached self i d n g (add_trace es w) E G) as [w3 ->].
      discriminate.
    + intros [= <- _]. apply gather_fault in Eg as [-> | ->]; discriminate.
  - revert C. munfold. destruct (nodes w !! self) as [n1|]; [|discriminate].
    destruct (connections _ _ _); [discriminate|]. intros [= <- _] [= <- _]. discriminate.
Qed.

(** Without a graphics object [propagateData] never returns. *)
Lemma propagateData_bare self i n w :
  nodes w !! self = Some n → _nodeGraphicsObject n = None →
  is_crash (propagateData self i w).
Proof.
  intros E G. rewrite propagateData_unfold, run_bind.
  destruct (NodeState_connections self PortType.In i w) as [cs w1|f1 w1] eqn:C; [|done].
  apply NodeState_connections_inv in C as [-> _]. rewrite run_bind.
  destruct (gather cs [] w) as [d w2|f2 w2] eqn:Eg; [|done].
  destruct (gather_only_calls cs [] w) as [es Hes]. rewrite Eg in Hes. cbn in Hes.
  subst w2. by destruct (after_gather_bare self i d n (add_trace es w) E G) as [w3 ->].
Qed.

(** *** onDataUpdated *)

Lemma onDataUpdated_Done self index n cs w :
  nodes w !! self = Some n →
  connections (_nodeState n) PortType.Out index = Some cs →
  Forall (λ c, is_Some (conns w !! c.2)) cs →
  onDataUpdated self index w
  = Done tt (add_trace (OutData self index ::
               ((λ c, ConnectionPropagateData c.2 (outData (_nodeDataModel n) index))
                  <$> cs)) w).
Proof.
  intros E C L. unfold onDataUpdated.
  rewrite run_bind, (this_Done _ _ _ E), run_bind, emit_Done.
  rewrite run_bind, (NodeState_connections_Done _ _ _ n cs (add_trace _ w) E C).
  unfold connection_propagateData.
  rewrite (for_each_live (λ p, ConnectionPropagateData p _)) by exact L.
  by rewrite add_trace_add_trace.
Qed.


(** *** What every member function leaves alone *)

Section Preservation.
Variable R : World → World → Prop.
Hypothesis R_refl : ∀ w, R w w.
Hypothesis R_trans : ∀ w1 w2 w3, R w1 w2 → R w2 w3 → R w1 w3.
Hypothesis R_emit : ∀ e w, R w (add_trace [e] w).

Lemma preserves_ret {A} (a : A) : preserves R (mret a).
Proof. intros w. apply R_refl. Qed.

Lemma preserves_fault {A} f : preserves R (fault f : M A).
Proof. intros w. apply R_refl. Qed.

Lemma preserves_emit e : preserves R (emit e).
Proof. intros w. apply R_emit. Qed.

Lemma preserves_bind {A B} (m : M A) (k : A → M B) :
  preserves R m → (∀ a, preserves R (k a)) → preserves R (m ≫= k).
Proof.
  intros Hm Hk w. rewrite run_bind. specialize (Hm w).
  destruct (m w) as [a w1|f w1]; cbn in *; [|done].
  eapply R_trans; [exact Hm | apply Hk].
Qed.

Lemma preserves_for_each {A} (l : list A) (body : A → M unit) :
  (∀ x, preserves R (body x)) → preserves R (for_each l body).
Proof.
  intros Hb. induction l as [|x l IH]; cbn [for_each].
  - apply preserves_ret.
  - apply preserves_bind; [apply Hb | intros _; apply IH].
Qed.

Lemma preserves_deref_node p : preserves R (deref_node p).
Proof. intros w. unfold deref_node. destruct (nodes w !! p); apply R_refl. Qed.

Lemma preserves_deref_conn p : preserves R (deref_conn p).
Proof. intros w. unfold deref_conn. destruct (conns w !! p); apply R_refl. Qed.

Ltac pres :=
  repeat first
    [ apply preserves_ret | apply preserves_fault | apply preserves_emit
    | apply preserves_deref_node | apply preserves_deref_conn
    | apply preserves_bind; [|intros ?]
    | apply preserves_for_each; intros ?
    | match goal with
      | |- preserves _ (match ?x with _ => _ end) => destruct x
      end ].

Lemma preserves_graphicsObject self : preserves R (graphicsObject self).
Proof. unfold graphicsObject, this. pres. Qed.

Lemma preserves_NodeState_connections self portType i :
  preserves R (NodeState_connections self portType i).
Proof. unfold NodeState_connections, this. pres. Qed.

Lemma preserves_gather cs : ∀ acc, preserves R (gather cs acc).
Proof. induction cs as [|c cs IH]; intros acc; cbn [gather]; pres. apply IH. Qed.

Lemma preserves_onDataUpdated self index : preserves R (onDataUpdated self index).
Proof.
  unfold onDataUpdated, this, connection_propagateData. pres.
Qed.

(** The loops of [onNodeSizeUpdated] over the connections of both port types. *)
Lemma preserves_move_loops self :
  preserves R (for_each [PortType.In; PortType.Out] (move_connections self)).
Proof. unfold move_connections, this, connection_move. pres. Qed.

(** The loops of [onPortCountChanged] that emit [killConnection]. *)
Lemma preserves_kill_loops self :
  preserves R (for_each [PortType.In; PortType.Out] (remove_connections self)).
Proof. unfold remove_connections, this, killConnection. pres. Qed.

(** Updates of a node that keep its identifier and its graphics object. *)
Hypothesis R_modify : ∀ self f,
  (∀ n, _uid (f n) = _uid n ∧ _nodeGraphicsObject (f n) = _nodeGraphicsObject n) →
  preserves R (modify self f).

Ltac pres' :=
  repeat first
    [ apply preserves_graphicsObject | apply preserves_NodeState_connections
    | apply preserves_gather | apply preserves_move_loops
    | apply preserves_kill_loops
    | apply R_modify; intros ?; split; reflexivity
    | apply preserves_ret | apply preserves_fault | apply preserves_emit
    | apply preserves_deref_node | apply preserves_deref_conn
    | apply preserves_bind; [|intros ?]
    | match goal with
      | |- preserves _ (match ?x with _ => _ end) => destruct x
      end ].

Lemma preserves_recalculateVisuals self : preserves R (recalculateVisuals self).
Proof.
  unfold recalculateVisuals, graphics_setGeometryChanged, geometry_recalculateSize,
    graphics_update, graphics_moveConnections. pres'.
Qed.

Lemma preserves_Node_save self : preserves R (Node_save self).
Proof. unfold Node_save, this. pres'. Qed.

Lemma preserves_reactToPossibleConnection self portType dataType scenePoint :
  preserves R (reactToPossibleConnection self portType dataType scenePoint).
Proof. unfold reactToPossibleConnection, graphics_update. pres'. Qed.

Lemma preserves_resetReactionToConnection self :
  preserves R (resetReactionToConnection self).
Proof. unfold resetReactionToConnection, graphics_update. pres'. Qed.

Lemma preserves_geometry_recalculateSize self :
  preserves R (geometry_recalculateSize self).
Proof. unfold geometry_recalculateSize. pres'. Qed.

Lemma preserves_Node_id self : preserves R (Node_id self).
Proof. unfold Node_id, this. pres'. Qed.

Lemma preserves_propagateData self i : preserves R (propagateData self i).
Proof.
  unfold propagateData, graphics_setGeometryChanged, geometry_recalculateSize,
    graphics_update, graphics_moveConnections. pres'.
Qed.

Lemma preserves_onNodeSizeUpdated self : preserves R (onNodeSizeUpdated self).
Proof. unfold onNodeSizeUpdated, geometry_recalculateSize, this. pres'. Qed.

Lemma preserves_onPortCountChanged self : preserves R (onPortCountChanged self).
Proof.
  unfold onPortCountChanged, state_updatePortCount, geometry_updatePortCount, this.
  pres'.
Qed.

End Preservation.


Lemma only_calls_refl w : only_calls w w.
Proof. exists []. by rewrite add_trace_nil. Qed.

Lemma only_calls_trans w1 w2 w3 : only_calls w1 w2 → only_calls w2 w3 → only_calls w1 w3.
Proof. intros [es1 ->] [es2 ->]. eexists. by rewrite add_trace_add_trace. Qed.

Lemma only_calls_emit e w : only_calls w (add_trace [e] w).
Proof. by eexists. Qed.

Lemma same_attachment_refl w : same_attachment w w.
Proof. intros p n E. eauto. Qed.

Lemma same_attachment_trans w1 w2 w3 :
  same_attachment w1 w2 → same_attachment w2 w3 → same_attachment w1 w3.
Proof.
  intros H12 H23 p n E. destruct (H12 p n E) as (n2 & E2 & U2).
  destruct (H23 p n2 E2) as (n3 & E3 & U3). exists n3. split; [done|].
  by rewrite U3.
Qed.

Lemma same_attachment_emit e w : same_attachment w (add_trace [e] w).
Proof. intros p n E. eauto. Qed.

Lemma same_attachment_set_node self n n' w :
  nodes w !! self = Some n →
  (_nodeGraphicsObject n' = None ↔ _nodeGraphicsObject n = None) →
  same_attachment w (set_node self n' w).
Proof.
  intros E Hg p n0 E0. destruct (decide (p = self)) as [->|Hne].
  - exists n'. mcbn. rewrite lookup_insert_eq. split; [done|].
    rewrite E in E0. by injection E0 as <-.
  - exists n0. mcbn. by rewrite lookup_insert_ne.
Qed.

Lemma same_attachment_modify self f :
  (∀ n, _uid (f n) = _uid n ∧ _nodeGraphicsObject (f n) = _nodeGraphicsObject n) →
  preserves same_attachment (modify self f).
Proof.
  intros Hf w. unfold modify, this, deref_node, store. rewrite run_bind.
  destruct (nodes w !! self) as [n|] eqn:E; cbn; [|apply same_attachment_refl].
  apply (same_attachment_set_node self n); [done|]. by rewrite (proj2 (Hf n)).
Qed.

(** [restore] moves the graphics object but neither attaches nor detaches one. *)
Lemma same_attachment_Node_restore self json :
  preserves same_attachment (Node_restore self json).
Proof.
  intros w. destruct (nodes w !! self) as [n|] eqn:E.
  - destruct (_nodeGraphicsObject n) as [g|] eqn:G.
    + rewrite (Node_restore_Done self json n g w E G). cbn [final].
      eapply same_attachment_trans; [|apply same_attachment_refl].
      intros p n0 E0. destruct (decide (p = self)) as [->|Hne].
      * eexists. cbn. rewrite lookup_insert_eq. split; [done|]. cbn.
        rewrite E in E0. injection E0 as <-. by rewrite G.
      * exists n0. cbn. by rewrite lookup_insert_ne.
    + rewrite (Node_restore_null self json n w E G). cbn [final].
      by apply (same_attachment_set_node self n).
  - unfold Node_restore, modify, this, deref_node. rewrite !run_bind, E. cbn.
    apply same_attachment_refl.
Qed.

(** *** Inversions: what a normal return tells *)

Lemma recalculateVisuals_inv self w w' :
  recalculateVisuals self w = Done tt w' →
  ∃ n, nodes w !! self = Some n
       ∧ w' = add_trace (cascade self) (set_node self (recalc n) w).
Proof.
  destruct (nodes w !! self) as [n|] eqn:E.
  - destruct (_nodeGraphicsObject n) as [g|] eqn:G.
    + rewrite (recalculateVisuals_Done _ _ _ _ E G). intros [= <-]. eauto.
    + by rewrite (recalculateVisuals_null _ _ _ E G).
  - mrun. discriminate.
Qed.

Lemma geometry_recalculateSize_inv self w w' :
  geometry_recalculateSize self w = Done tt w' →
  ∃ n, nodes w !! self = Some n
       ∧ w' = add_trace [RecalculateSize self] (set_node self (recalc n) w).
Proof.
  destruct (nodes w !! self) as [n|] eqn:E; mrun; [|discriminate].
  intros [= <-]. eauto.
Qed.

(** *** onPortCountChanged *)

Lemma to_int_small z : 0 ≤ z < 2 ^ 31 → to_int z = z.
Proof. intros Hz. unfold to_int. rewrite Z.mod_small; lia. Qed.

Lemma at_index_of_nat {A} (v : list A) (k : nat) : at_index v (Z.of_nat k) = v !! k.
Proof.
  unfold at_index. destruct (Z.ltb_spec (Z.of_nat k) 0); [lia|]. by rewrite Nat2Z.id.
Qed.

(** The inner loops from index [k] on: one emission for every connection
    registered at an index from [k] up to the end of the table. *)
Lemma kill_index_loop self (entries : list (list (QUuid * positive))) : ∀ rest k w,
  drop k entries = rest →
  for_each ((λ j : nat, Z.of_nat k + Z.of_nat j) <$> seq 0 (length rest))
    (λ index,
       match at_index entries index with
       | Some connections => for_each connections (λ c, killConnection self c.2)
       | None => fault IndexOutOfRange
       end) w
  = Done tt (add_trace (KillConnection self <$> (concat rest).*2) w).
Proof.
  induction rest as [|r rest IH]; intros k w Hd.
  - cbn. by rewrite add_trace_nil.
  - assert (entries !! k = Some r) as Hk.
    { rewrite <- (Nat.add_0_r k), <- lookup_drop, Hd. reflexivity. }
    assert (drop (S k) entries = rest) as Hd'.
    { rewrite (drop_S _ _ _ Hk) in Hd. by injection Hd. }
    cbn [length seq fmap list_fmap for_each]. rewrite run_bind.
    replace (Z.of_nat k + Z.of_nat 0) with (Z.of_nat k) by lia.
    rewrite at_index_of_nat, Hk.
    unfold killConnection at 1.
    rewrite (for_each_emit (λ c : QUuid * positive, KillConnection self c.2)).
    rewrite <- fmap_S_seq.
    change (list_fmap nat Z ?f (S <$> ?l)) with (f <$> (S <$> l)).
    rewrite <- list_fmap_compose.
    rewrite (list_fmap_ext _ (λ j : nat, Z.of_nat (S k) + Z.of_nat j))
      by (intros; cbn [compose]; lia).
    rewrite (IH (S k)) by exact Hd'.
    rewrite add_trace_add_trace. cbn [concat]. rewrite !fmap_app.
    rewrite <- !list_fmap_compose. reflexivity.
Qed.

Lemma kill_loop self portType n w :
  nodes w !! self = Some n →
  counts_fit n portType →
  remove_connections self portType w
  = Done tt (add_trace (KillConnection self <$> removed n portType) w).
Proof.
  intros E [Hn Hlen]. unfold remove_connections.
  rewrite run_bind, (this_Done _ _ _ E). cbv zeta.
  rewrite !to_int_small by lia. unfold index_range, removed in *.
  set (entries := getEntries (_nodeState n) portType) in *.
  set (new := nPorts (_nodeDataModel n) portType) in *.
  destruct (Z.le_gt_cases new (Z.of_nat (length entries))) as [Hle|Hgt].
  - replace (Z.to_nat (Z.of_nat (length entries) - new))
      with (length (drop (Z.to_nat new) entries)) by (rewrite length_drop; lia).
    rewrite (list_fmap_ext _ (λ j : nat, Z.of_nat (Z.to_nat new) + Z.of_nat j))
      by (intros; lia).
    by apply kill_index_loop.
  - replace (Z.to_nat (Z.of_nat (length entries) - new)) with 0%nat by lia.
    rewrite drop_ge by lia. cbn. by rewrite add_trace_nil.
Qed.

Lemma onPortCountChanged_Done self n g w :
  nodes w !! self = Some n → _nodeGraphicsObject n = Some g →
  counts_fit n PortType.In → counts_fit n PortType.Out →
  onPortCountChanged self w
  = Done tt
      (add_trace ((KillConnection self <$> removed n PortType.In)
                  ++ (KillConnection self <$> removed n PortType.Out)
                  ++ StateUpdatePortCount self (nPorts (_nodeDataModel n) PortType.In)
                                               (nPorts (_nodeDataModel n) PortType.Out)
                  :: GeometryUpdatePortCount self :: cascade self)
         (set_node self
            (recalc (with_geometry
               (NodeGeometry_updatePortCount (_nodeDataModel n) (_nodeGeometry n))
               (with_state
                  (NodeState_updatePortCount (nPorts (_nodeDataModel n) PortType.In)
                                             (nPorts (_nodeDataModel n) PortType.Out)
                                             (_nodeState n)) n))) w)).
Proof.
  intros E G FI FO. unfold onPortCountChanged. cbn [for_each].
  rewrite run_bind, run_bind.
  rewrite (kill_loop self PortType.In n w E FI).
  rewrite run_bind.
  rewrite (kill_loop self PortType.Out n (add_trace _ w) E FO).
  mrun. mdone.
Qed.

(** Counting the emissions of [killConnection]. *)

Lemma kill_count_not_in self c (l : list positive) :
  c ∉ l → kill_count c (KillConnection self <$> l) = 0%nat.
Proof.
  unfold kill_count. induction l as [|x l IH]; intros Hc; [reflexivity|].
  apply not_elem_of_cons in Hc as [Hx Hl]. cbn.
  destruct (Pos.eqb_spec x c); [congruence|]. by apply IH.
Qed.

Lemma kill_count_in self c (l : list positive) :
  NoDup l → c ∈ l → kill_count c (KillConnection self <$> l) = 1%nat.
Proof.
  unfold kill_count. induction l as [|x l IH]; intros Hd Hc; [by apply elem_of_nil in Hc|].
  apply NoDup_cons in Hd as [Hx Hd]. cbn.
  destruct (Pos.eqb_spec x c) as [->|Hne].
  - cbn. f_equal. by apply (kill_count_not_in self).
  - apply elem_of_cons in Hc as [->|Hc]; [done|]. by apply IH.
Qed.

Lemma elem_of_concat_2 {A} (x : A) (l : list A) (ls : list (list A)) :
  l ∈ ls → x ∈ l → x ∈ concat ls.
Proof.
  induction ls as [|l' ls IH]; intros Hl Hx; [by apply elem_of_nil in Hl|].
  cbn. apply elem_of_app. apply elem_of_cons in Hl as [->|Hl]; [by left|right; by apply IH].
Qed.

(** A connection registered at an index that the new port count keeps or
    removes, in terms of the table. *)
Lemma registered_removed n portType (index : nat) cs (c : positive) :
  getEntries (_nodeState n) portType !! index = Some cs → c ∈ cs.*2 →
  nPorts (_nodeDataModel n) portType ≤ Z.of_nat index →
  c ∈ removed n portType.
Proof.
  intros Hi Hc Hn. unfold removed.
  apply list_elem_of_fmap in Hc as (idc & -> & Hc).
  apply list_elem_of_fmap_2. apply (elem_of_concat_2 _ cs); [|done].
  apply list_elem_of_lookup.
  exists (index - Z.to_nat (nPorts (_nodeDataModel n) portType))%nat.
  rewrite lookup_drop, <- Hi. f_equal. lia.
Qed.

Lemma registered_kept n portType (index : nat) cs (c : positive) :
  NoDup (concat (getEntries (_nodeState n) portType)).*2 →
  getEntries (_nodeState n) portType !! index = Some cs → c ∈ cs.*2 →
  Z.of_nat index < nPorts (_nodeDataModel n) portType →
  c ∉ removed n portType.
Proof.
  intros Hd Hi Hc Hn. unfold removed.
  set (k := Z.to_nat (nPorts (_nodeDataModel n) portType)) in *.
  rewrite <- (take_drop k (getEntries (_nodeState n) portType)) in Hd.
  rewrite concat_app, fmap_app in Hd. apply NoDup_app in Hd as (_ & Hd & _).
  apply Hd. apply list_elem_of_fmap in Hc as (idc & -> & Hc).
  apply list_elem_of_fmap_2. apply (elem_of_concat_2 _ cs); [|done].
  apply list_elem_of_lookup. exists index. rewrite lookup_take_lt; [done|lia].
Qed.

Lemma NoDup_removed n portType :
  NoDup (concat (getEntries (_nodeState n) portType)).*2 → NoDup (removed n portType).
Proof.
  intros Hd. unfold removed.
  set (k := Z.to_nat (nPorts (_nodeDataModel n) portType)) in *.
  rewrite <- (take_drop k (getEntries (_nodeState n) portType)) in Hd.
  rewrite concat_app, fmap_app in Hd. by apply NoDup_app in Hd as (_ & _ & Hd).
Qed.

Lemma length_resize_entries (k : Z) (v : list (list (QUuid * positive))) :
  0 ≤ k → Z.of_nat (length (resize_entries k v)) = k.
Proof.
  intros Hk. unfold resize_entries. rewrite length_app, length_take, length_replicate. lia.
Qed.


(** *** Normal returns of the three operations that change the layout inputs *)

Lemma after_gather_Done self i d n g w :
  nodes w !! self = Some n → _nodeGraphicsObject n = Some g →
  after_gather self i d w
  = Done tt (add_trace (SetInData self d i :: cascade self ++ cascade self)
       (set_node self (recalc (with_model (setInData d i (_nodeDataModel n)) n)) w)).
Proof. intros E G. unfold after_gather. mrun. mdone. Qed.

Lemma propagateData_inv self i w w' :
  propagateData self i w = Done tt w' →
  ∃ n g d es,
    nodes w !! self = Some n ∧ _nodeGraphicsObject n = Some g
    ∧ w' = add_trace (es ++ SetInData self d i :: cascade self ++ cascade self)
             (set_node self (recalc (with_model (setInData d i (_nodeDataModel n)) n)) w).
Proof.
  rewrite propagateData_unfold, run_bind.
  destruct (NodeState_connections self PortType.In i w) as [cs w1|] eqn:C; [|discriminate].
  apply NodeState_connections_inv in C as (-> & n & E & _). rewrite run_bind.
  destruct (gather cs [] w) as [d w2|] eqn:Eg; [|discriminate].
  destruct (gather_only_calls cs [] w) as [es Hes]. rewrite Eg in Hes. cbn in Hes. subst w2.
  destruct (_nodeGraphicsObject n) as [g|] eqn:G.
  - rewrite (after_gather_Done self i d n g (add_trace es w) E G). intros [= <-].
    exists n, g, d, es. split; [done|]. split; [done|].
    unfold add_trace, set_node. mcbn. by rewrite <- ?app_assoc.
  - destruct (after_gather_bare self i d n (add_trace es w) E G) as [w3 ->]. discriminate.
Qed.

Lemma onNodeSizeUpdated_inv self w w' :
  onNodeSizeUpdated self w = Done tt w' →
  ∃ n es1 es2,
    nodes w !! self = Some n
    ∧ w' = add_trace (es1 ++ RecalculateSize self :: es2)
             (set_node self (recalc (adjusted n)) w).
Proof.
  unfold onNodeSizeUpdated. intros Hrun.
  apply bind_Done_inv in Hrun as (n & w0 & Hthis & Hrun).
  unfold this, deref_node in Hthis.
  destruct (nodes w !! self) as [n0|] eqn:E; [|discriminate].
  injection Hthis as -> ->.
  apply bind_Done_inv in Hrun as (u & w1 & Hpre & Hrun).
  apply bind_Done_inv in Hrun as (u' & w2 & Hrec & Hloops). destruct u, u'.
  destruct (preserves_move_loops only_calls only_calls_refl only_calls_trans
              only_calls_emit self w2) as [es2 Hes2].
  rewrite Hloops in Hes2. cbn in Hes2. subst w'.
  apply geometry_recalculateSize_inv in Hrec as (n1 & E1 & ->).
  exists n. unfold adjusted.
  destruct (embeddedWidget (_nodeDataModel n)) as [widget|].
  - revert Hpre. mrun. intros [= <-]. revert E1. mcbn. rewrite lookup_insert_eq.
    intros [= <-]. exists [AdjustSize self], es2.
    split; [done|]. unfold add_trace, set_node, recalc. mcbn.
    by rewrite insert_insert_eq, <- !app_assoc.
  - revert Hpre. mrun. intros [= <-]. rewrite E in E1. injection E1 as <-.
    exists [], es2. split; [done|]. unfold add_trace, set_node, recalc. mcbn.
    by rewrite <- ?app_assoc.
Qed.

Lemma onPortCountChanged_inv self w w' :
  onPortCountChanged self w = Done tt w' →
  ∃ n g es,
    nodes w !! self = Some n ∧ _nodeGraphicsObject n = Some g
    ∧ w' = add_trace
             (es ++ StateUpdatePortCount self (nPorts (_nodeDataModel n) PortType.In)
                                              (nPorts (_nodeDataModel n) PortType.Out)
                 :: GeometryUpdatePortCount self :: cascade self)
             (set_node self
                (recalc (with_geometry
                   (NodeGeometry_updatePortCount (_nodeDataModel n) (_nodeGeometry n))
                   (with_state
                      (NodeState_updatePortCount
                         (nPorts (_nodeDataModel n) PortType.In)
                         (nPorts (_nodeDataModel n) PortType.Out)
                         (_nodeState n)) n))) w).
Proof.
  unfold onPortCountChanged. intros Hrun.
  apply bind_Done_inv in Hrun as (u & w1 & Hloops & Hrun).
  destruct (preserves_kill_loops only_calls only_calls_refl only_calls_trans
              only_calls_emit self w) as [es Hes].
  rewrite Hloops in Hes. cbn in Hes. subst w1.
  revert Hrun. munfold. mcbn.
  destruct (nodes w !! self) as [n|] eqn:E; [|discriminate].
  repeat (mcbn; try mlookup).
  destruct (_nodeGraphicsObject n) as [g|] eqn:G; [|discriminate].
  repeat (mcbn; try mlookup). intros [= <-].
  exists n, g, es. split; [done|]. split; [done|].
  unfold add_trace, set_node, cascade, recalc. mcbn.
  by rewrite !insert_insert_eq, <- !app_assoc.
Qed.

(** *** Signal delivery *)

(** After construction on a data model whose signals were not connected
    before, [dataUpdated] runs [onDataUpdated], [embeddedWidgetSizeUpdated]
    runs [onNodeSizeUpdated], and [portCountChanged] runs nothing. *)
Lemma deliver_after_ctor self dataModel index w :
  wiring w = [] →
  let w1 := final (Node_ctor self dataModel w) in
  deliver self dataUpdated index w1 = (onDataUpdated self index;; mret tt) w1
  ∧ deliver self embeddedWidgetSizeUpdated index w1
    = (onNodeSizeUpdated self;; mret tt) w1
  ∧ deliver self portCountChanged index w1 = Done tt w1.
Proof.
  intros Hw. rewrite Node_ctor_Done. cbn [final]. unfold deliver. cbn [wiring].
  rewrite Hw. cbn [app List.filter fst snd Signal_eqb]. rewrite Pos.eqb_refl.
  done.
Qed.

(** *** Further results of the member functions *)

Lemma modify_Done self f n w :
  nodes w !! self = Some n → modify self f w = Done tt (set_node self (f n) w).
Proof. intros E. unfold modify. by rewrite run_bind, (this_Done _ _ _ E). Qed.

Lemma move_loop (entries : list (list (QUuid * positive))) : ∀ w,
  Forall (λ c, is_Some (conns w !! c)) (concat entries).*2 →
  for_each entries (λ conn_set,
    for_each conn_set (λ pair, connection_move pair.2)) w
  = Done tt (add_trace (ConnectionMove <$> (concat entries).*2) w).
Proof.
  induction entries as [|cs entries IH]; intros w Hl.
  - cbn. by rewrite add_trace_nil.
  - cbn [concat] in Hl. rewrite fmap_app in Hl. apply Forall_app in Hl as [Hcs Hl].
    cbn [for_each]. rewrite run_bind. unfold connection_move at 1.
    rewrite (for_each_live ConnectionMove).
    + rewrite IH by exact Hl. rewrite add_trace_add_trace. cbn [concat].
      rewrite !fmap_app, <- !list_fmap_compose. reflexivity.
    + apply Forall_forall. intros c Hc. rewrite Forall_forall in Hcs. apply Hcs.
      apply list_elem_of_fmap. by exists c.
Qed.

Lemma move_connections_Done self type n w :
  nodes w !! self = Some n →
  Forall (λ c, is_Some (conns w !! c)) (registered n type) →
  move_connections self type w
  = Done tt (add_trace (ConnectionMove <$> registered n type) w).
Proof.
  intros E Hl. unfold move_connections. rewrite run_bind, (this_Done _ _ _ E).
  by apply move_loop.
Qed.

Lemma registered_adjusted n type :
  registered (recalc (adjusted n)) type = registered n type.
Proof. unfold registered, adjusted. by destruct (embeddedWidget _). Qed.

Lemma onNodeSizeUpdated_Done self n w :
  nodes w !! self = Some n →
  Forall (λ c, is_Some (conns w !! c)) (registered n PortType.In) →
  Forall (λ c, is_Some (conns w !! c)) (registered n PortType.Out) →
  onNodeSizeUpdated self w
  = Done tt
      (add_trace (widget_calls self n ++ RecalculateSize self
                    :: (ConnectionMove <$> registered n PortType.In)
                    ++ (ConnectionMove <$> registered n PortType.Out))
         (set_node self (recalc (adjusted n)) w)).
Proof.
  intros E LI LO. unfold onNodeSizeUpdated.
  rewrite run_bind, (this_Done _ _ _ E).
  assert (∀ w1 : World,
    nodes w1 !! self = Some (adjusted n) → conns w1 = conns w →
    (geometry_recalculateSize self;;
     for_each [PortType.In; PortType.Out] (move_connections self)) w1
    = Done tt (add_trace (RecalculateSize self
                 :: (ConnectionMove <$> registered n PortType.In)
                 ++ (ConnectionMove <$> registered n PortType.Out))
         (set_node self (recalc (adjusted n)) w1))) as Hrest.
  { intros w1 E1 C1. rewrite run_bind. unfold geometry_recalculateSize.
    rewrite run_bind, emit_Done.
    rewrite (modify_Done self _ (adjusted n)) by exact E1.
    cbn [for_each]. rewrite run_bind.
    erewrite (move_connections_Done self PortType.In (recalc (adjusted n))).
    2: { cbn. by rewrite lookup_insert_eq. }
    2: { rewrite (registered_adjusted n PortType.In). cbn [conns set_node add_trace].
         apply (Forall_impl _ _ _ LI). intros c. by rewrite C1. }
    rewrite run_bind.
    erewrite (move_connections_Done self PortType.Out (recalc (adjusted n))).
    2: { cbn. by rewrite lookup_insert_eq. }
    2: { rewrite (registered_adjusted n PortType.Out). cbn [conns set_node add_trace].
         apply (Forall_impl _ _ _ LO). intros c. by rewrite C1. }
    rewrite !registered_adjusted. cbn [mret M_ret].
    unfold add_trace, set_node. mcbn. by rewrite <- !app_assoc. }
  unfold widget_calls, adjusted in *.
  destruct (embeddedWidget (_nodeDataModel n)) as [widget|].
  - rewrite run_bind, run_bind, emit_Done.
    rewrite (modify_Done self _ n) by exact E.
    rewrite Hrest; [|cbn; by rewrite lookup_insert_eq|reflexivity].
    unfold add_trace, set_node. mcbn. by rewrite insert_insert_eq, <- !app_assoc.
  - rewrite run_bind. cbn [mret M_ret]. rewrite Hrest by done. reflexivity.
Qed.

Lemma bind_ret_unit (m : M unit) w : (m;; mret tt) w = m w.
Proof. rewrite run_bind. by destruct (m w) as [[] ?|]. Qed.

(** However [gather] ends, all it has added to the record are calls of
    [outData]. *)
Lemma gather_calls cs : ∀ acc w,
  ∃ es, final (gather cs acc w) = add_trace es w
        ∧ Forall (λ e, is_Some (out_data_call e)) es.
Proof.
  induction cs as [|c cs IH]; intros acc w.
  - exists []. cbn. by rewrite add_trace_nil.
  - cbn [gather]. munfold. destruct (conns w !! c.2) as [conn|];
      [|exists []; cbn; by rewrite add_trace_nil].
    destruct (getNode conn PortType.Out) as [p|];
      [|exists []; cbn; by rewrite add_trace_nil].
    destruct (nodes w !! p) as [up|]; [|exists []; cbn; by rewrite add_trace_nil].
    mcbn. match goal with |- ∃ _, final (gather cs ?a ?w1) = _ ∧ _ =>
      destruct (IH a w1) as (es & Hes & Hall) end.
    rewrite Hes. eexists (_ :: es). split.
    + unfold add_trace. mcbn. by rewrite <- app_assoc.
    + constructor; [by eexists | exact Hall].
Qed.

Lemma NodeState_connections_Crash self portType i f w w' :
  NodeState_connections self portType i w = Crash f w' →
  w' = w ∧ (f = NullNode ∨ f = IndexOutOfRange).
Proof.
  munfold. destruct (nodes w !! self) as [n|]; [|intros [= <- <-]; auto].
  destruct (connections _ _ _); [discriminate|]. intros [= <- <-]. auto.
Qed.

(** A fault of [propagateData] other than the null graphics object comes
    before anything is handed to the model. *)
Lemma propagateData_stops self i f w w' :
  propagateData self i w = Crash f w' → f ≠ NullGraphicsObject →
  ∃ es, w' = add_trace es w ∧ Forall (λ e, is_Some (out_data_call e)) es.
Proof.
  rewrite propagateData_unfold, run_bind.
  destruct (NodeState_connections self PortType.In i w) as [cs w1|f1 w1] eqn:C.
  - apply NodeState_connections_inv in C as (-> & n & E & _). rewrite run_bind.
    destruct (gather_calls cs [] w) as (es & Hes & Hall).
    destruct (gather cs [] w) as [d w2|f2 w2] eqn:Eg; cbn in Hes; subst w2.
    + destruct (_nodeGraphicsObject n) as [g|] eqn:G.
      * by rewrite (after_gather_Done self i d n g (add_trace es w) E G).
      * destruct (after_gather_bare self i d n (add_trace es w) E G) as [w3 ->].
        intros [= <- _] Hf. by destruct Hf.
    + intros [= <- <-] _. eauto.
  - apply NodeState_connections_Crash in C as [-> _]. intros [= <- <-] _.
    exists []. by rewrite add_trace_nil.
Qed.

Lemma onDataUpdated_out_of_range self index n w :
  nodes w !! self = Some n →
  connections (_nodeState n) PortType.Out index = None →
  onDataUpdated self index w
  = Crash IndexOutOfRange (add_trace [OutData self index] w).
Proof. intros E C. unfold onDataUpdated. mrun. reflexivity. Qed.

Lemma removed_nil n portType :
  Z.of_nat (length (getEntries (_nodeState n) portType))
    ≤ nPorts (_nodeDataModel n) portType →
  removed n portType = [].
Proof. intros Hle. unfold removed. by rewrite drop_ge by lia. Qed.

Lemma onPortCountChanged_bare self n w :
  nodes w !! self = Some n → _nodeGraphicsObject n = None →
  counts_fit n PortType.In → counts_fit n PortType.Out →
  onPortCountChanged self w
  = Crash NullGraphicsObject
      (add_trace ((KillConnection self <$> removed n PortType.In)
                  ++ (KillConnection self <$> removed n PortType.Out)
                  ++ [StateUpdatePortCount self (nPorts (_nodeDataModel n) PortType.In)
                                                (nPorts (_nodeDataModel n) PortType.Out);
                      GeometryUpdatePortCount self])
         (set_node self (recounted n) w)).
Proof.
  intros E G FI FO. unfold onPortCountChanged. cbn [for_each].
  rewrite run_bind, run_bind.
  rewrite (kill_loop self PortType.In n w E FI).
  rewrite run_bind.
  rewrite (kill_loop self PortType.Out n (add_trace _ w) E FO).
  mrun. unfold recounted. mdone.
Qed.

(** *** Identifiers and the generator *)

Lemma ids_untouched_refl w : ids_untouched w w.
Proof. done. Qed.

Lemma ids_untouched_trans w1 w2 w3 :
  ids_untouched w1 w2 → ids_untouched w2 w3 → ids_untouched w1 w3.
Proof.
  intros (E12 & D12 & N12) (E23 & D23 & N23). split_and!; [congruence..|].
  intros p. by rewrite N23.
Qed.

Lemma ids_untouched_emit e w : ids_untouched w (add_trace [e] w).
Proof. done. Qed.

Lemma ids_untouched_modify self f :
  (∀ n, _uid (f n) = _uid n) → preserves ids_untouched (modify self f).
Proof.
  intros Hf w. unfold modify, this, deref_node, store. rewrite run_bind.
  destruct (nodes w !! self) as [n|] eqn:E; cbn; [|apply ids_untouched_refl].
  split; [done|]. split; [done|]. intros p. cbn.
  destruct (decide (p = self)) as [->|Hne].
  - rewrite lookup_insert_eq, E. cbn. by rewrite Hf.
  - by rewrite lookup_insert_ne.
Qed.

Lemma ids_untouched_modify' self f :
  (∀ n, _uid (f n) = _uid n ∧ _nodeGraphicsObject (f n) = _nodeGraphicsObject n) →
  preserves ids_untouched (modify self f).
Proof. intros Hf. apply ids_untouched_modify. intros n. apply Hf. Qed.

Lemma ids_untouched_setGraphicsObject self graphics :
  preserves ids_untouched (setGraphicsObject self graphics).
Proof.
  unfold setGraphicsObject. apply preserves_bind.
  - exact ids_untouched_trans.
  - by apply ids_untouched_modify.
  - intros _. apply preserves_geometry_recalculateSize;
      first [exact ids_untouched_refl | exact ids_untouched_trans
            | exact ids_untouched_emit | exact ids_untouched_modify'].
Qed.

Lemma ids_untouched_nodeGraphicsObject self :
  preserves ids_untouched (nodeGraphicsObject self).
Proof.
  intros w. unfold nodeGraphicsObject, this, deref_node. rewrite run_bind.
  destruct (nodes w !! self); apply ids_untouched_refl.
Qed.

(** The identifiers stay drawn ones when nothing has touched them. *)
Lemma drawn_ids_untouched w w' : ids_untouched w w' → drawn_ids w → drawn_ids w'.
Proof.
  intros (He & Hd & Hn) (draw & Hdraw & Hinj). exists draw. split.
  - intros p n' E'. specialize (Hn p). rewrite E' in Hn.
    destruct (nodes w !! p) as [n|] eqn:E; [|discriminate].
    injection Hn as Hn. rewrite He, Hd, Hn. by apply Hdraw.
  - intros p q [n' Ep] [m' Eq]. apply Hinj.
    + pose proof (Hn p) as Hp. rewrite Ep in Hp.
      by destruct (nodes w !! p).
    + pose proof (Hn q) as Hq. rewrite Eq in Hq.
      by destruct (nodes w !! q).
Qed.

(** The constructor gives the node at an unused address the next draw. *)
Lemma drawn_ids_ctor self dataModel w w' :
  nodes w !! self = None → Node_ctor self dataModel w = Done tt w' →
  drawn_ids w → drawn_ids w'.
Proof.
  intros Hnew Hrun (draw & Hdraw & Hinj).
  rewrite Node_ctor_Done in Hrun. injection Hrun as <-.
  exists (λ p, if decide (p = self) then drawn w else draw p). split.
  - intros p n. cbn. destruct (decide (p = self)) as [->|Hne].
    + rewrite lookup_insert_eq. intros [= <-]. split; [lia|done].
    + rewrite lookup_insert_ne by done. intros E.
      destruct (Hdraw p n E) as [Hlt Hu]. split; [lia|done].
  - intros p q. cbn.
    destruct (decide (p = self)) as [->|Hp], (decide (q = self)) as [->|Hq];
      rewrite ?lookup_insert_eq, ?lookup_insert_ne by done.
    + done.
    + intros _ [m E] Heq. destruct (Hdraw q m E) as [Hlt _]. lia.
    + intros [n E] _ Heq. destruct (Hdraw p n E) as [Hlt _]. lia.
    + apply Hinj.
Qed.

Lemma member_call_untouched w w' :
  member_call w w' →
  (∃ self dataModel,
     nodes w !! self = None ∧ Node_ctor self dataModel w = Done tt w')
  ∨ ids_untouched w w'.
Proof.
  pose proof ids_untouched_refl as R. pose proof ids_untouched_trans as T.
  pose proof ids_untouched_emit as Em. pose proof ids_untouched_modify' as Mo.
  intros [self dataModel v v' Hnew Hrun
         |self json v v' Hrun|self uid v v' Hrun
         |self portType dataType scenePoint v v' Hrun|self v v' Hrun
         |self g v v' Hrun|self graphics v v' Hrun|self i v v' Hrun
         |self index v v' Hrun|self v v' Hrun|self v v' Hrun|self v v' Hrun];
    [left; by eauto|right..].
  - assert (preserves ids_untouched (Node_save self)) as P
      by (by apply preserves_Node_save).
    specialize (P v). by rewrite Hrun in P.
  - assert (preserves ids_untouched (Node_id self)) as P
      by (by apply preserves_Node_id).
    specialize (P v). by rewrite Hrun in P.
  - assert (preserves ids_untouched
              (reactToPossibleConnection self portType dataType scenePoint)) as P
      by (by apply preserves_reactToPossibleConnection).
    specialize (P v). by rewrite Hrun in P.
  - assert (preserves ids_untouched (resetReactionToConnection self)) as P
      by (by apply preserves_resetReactionToConnection).
    specialize (P v). by rewrite Hrun in P.
  - pose proof (ids_untouched_nodeGraphicsObject self v) as P. by rewrite Hrun in P.
  - pose proof (ids_untouched_setGraphicsObject self graphics v) as P.
    by rewrite Hrun in P.
  - assert (preserves ids_untouched (propagateData self i)) as P
      by (by apply preserves_propagateData).
    specialize (P v). by rewrite Hrun in P.
  - assert (preserves ids_untouched (onDataUpdated self index)) as P
      by (by apply preserves_onDataUpdated).
    specialize (P v). by rewrite Hrun in P.
  - assert (preserves ids_untouched (onNodeSizeUpdated self)) as P
      by (by apply preserves_onNodeSizeUpdated).
    specialize (P v). by rewrite Hrun in P.
  - assert (preserves ids_untouched (onPortCountChanged self)) as P
      by (by apply preserves_onPortCountChanged).
    specialize (P v). by rewrite Hrun in P.
  - assert (preserves ids_untouched (recalculateVisuals self)) as P
      by (by apply preserves_recalculateVisuals).
    specialize (P v). by rewrite Hrun in P.
Qed.

Lemma member_call_drawn_ids w w' : member_call w w' → drawn_ids w → drawn_ids w'.
Proof.
  intros Hc. destruct (member_call_untouched w w' Hc)
    as [(self & dataModel & Hnew & Hrun)|Hu].
  - by apply (drawn_ids_ctor self dataModel).
  - by apply drawn_ids_untouched.
Qed.

Lemma calls_drawn_ids w0 w : rtc member_call w0 w → drawn_ids w0 → drawn_ids w.
Proof.
  induction 1 as [|w0 w1 w Hc _ IH]; [done|].
  intros Hd. apply IH. by apply (member_call_drawn_ids w0).
Qed.

(** Drawn identifiers are unique as long as the generator has not repeated
    itself. *)
Lemma drawn_ids_unique w : drawn_ids w → no_repeat w → unique_ids w.
Proof.
  intros (draw & Hdraw & Hinj) Hgen p q n m Ep Eq Hu.
  destruct (Hdraw p n Ep) as [Hp Up], (Hdraw q m Eq) as [Hq Uq].
  apply Hinj; [by eexists..|].
  destruct (Nat.lt_trichotomy (draw p) (draw q)) as [Hlt|[Heq|Hgt]]; [|done|].
  - destruct (Hgen (draw p) (draw q)); [lia|congruence].
  - destruct (Hgen (draw q) (draw p)); [lia|congruence].
Qed.

End Facts.

(** * The claims *)

(** C1. [propagateData(i)] on a node with a graphics object, for a port index
    [i] of its table of input connections whose connections all have a live
    upstream node: for each connection registered at (In, i), in the order of
    enumeration, the upstream model's [outData] at the connection's output
    port is called and its value is passed through the connection's converter
    when there is one and left as it is when there is none; the list of these
    values, one per connection and in that order, is handed to the model by
    [setInData(list, i)]; only after that come the calls of the cascade
    (setGeometryChanged, recalculateSize, update, moveConnections), which
    [propagateData] makes and [recalculateVisuals] makes again. *)
Theorem C1_propagateData `{Collaborators} (self : positive) (i : PortIndex)
    (n : Node) (g : NodeGraphicsObject) (cs : list (QUuid * positive))
    (srcs : list (positive * PortIndex * NodeData)) (w : World) :
  nodes w !! self = Some n →
  _nodeGraphicsObject n = Some g →
  connections (_nodeState n) PortType.In i = Some cs →
  mapM (incoming w) cs = Some srcs →
  ∃ w',
    propagateData self i w = Done tt w'
    ∧ trace w' = trace w ++ (out_call <$> srcs)
                   ++ [SetInData self srcs.*2 i] ++ cascade self ++ cascade self
    ∧ _nodeDataModel <$> nodes w' !! self
      = Some (setInData srcs.*2 i (_nodeDataModel n))
    ∧ length srcs = length cs
    ∧ ∀ k c, cs !! k = Some c →
        ∃ conn outNode upstream,
          conns w !! c.2 = Some conn
          ∧ getNode conn PortType.Out = Some outNode
          ∧ nodes w !! outNode = Some upstream
          ∧ out_call <$> srcs !! k
            = Some (OutData outNode (getPortIndex conn PortType.Out))
          ∧ srcs.*2 !! k
            = Some (let d := outData (_nodeDataModel upstream)
                                     (getPortIndex conn PortType.Out) in
                    match getTypeConverter conn with
                    | Some convert => convert d
                    | None => d
                    end).
Proof.
  intros E G C S. eexists. split; [exact (propagateData_Done _ _ _ _ _ _ _ E G C S)|].
  split; [reflexivity|].
  split; [cbn; by rewrite lookup_insert_eq|].
  apply mapM_Some in S. split; [symmetry; by eapply Forall2_length|].
  intros k c Hk. destruct (Forall2_lookup_l _ _ _ _ _ S Hk) as (s & Hs & Hin).
  unfold incoming in Hin.
  destruct (conns w !! c.2) as [conn|] eqn:Ec; [|discriminate].
  cbn [mbind option_bind] in Hin.
  destruct (getNode conn PortType.Out) as [outNode|] eqn:Eo; [|discriminate].
  cbn [mbind option_bind] in Hin.
  destruct (nodes w !! outNode) as [upstream|] eqn:Eu; [|discriminate].
  cbn [mbind option_bind] in Hin. injection Hin as <-. exists conn, outNode, upstream.
  rewrite !list_lookup_fmap, Hs. done.
Qed.


(** C3. [save()] on a node with a graphics object returns, without changing
    anything, a JSON object with exactly the members [id], [model] and
    [position]: [id] is the printed UUID of the node, [model] is the object
    given by the data model's [save], and [position] is an object with exactly
    the numbers [x] and [y], the coordinates of the graphics object. *)
Theorem C3_save_format `{Collaborators} (self : positive) (n : Node)
    (g : NodeGraphicsObject) (w : World) :
  nodes w !! self = Some n →
  _nodeGraphicsObject n = Some g →
  ∃ (json position : QJsonObject),
    Node_save self w = Done json w
    ∧ dom json = {["id"; "model"; "position"]}
    ∧ json !! "id" = Some (JString (uuid_toString (_uid n)))
    ∧ json !! "model" = Some (JObject (model_save (_nodeDataModel n)))
    ∧ json !! "position" = Some (JObject position)
    ∧ dom position = {["x"; "y"]}
    ∧ position !! "x" = Some (JDouble (px (pos g)))
    ∧ position !! "y" = Some (JDouble (py (pos g))).
Proof.
  intros E G. eexists _, _. split; [exact (Node_save_Done _ _ _ _ E G)|].
  split; [rewrite !dom_insert_L, dom_empty_L; set_solver|].
  split; [by simplify_map_eq|]. split; [by simplify_map_eq|].
  split; [by simplify_map_eq|].
  split; [rewrite !dom_insert_L, dom_empty_L; set_solver|].
  split; by simplify_map_eq.
Qed.

(** C4. Whenever [propagateData], [onNodeSizeUpdated] or [onPortCountChanged]
    returns, the geometry of the node has been recalculated after the change:
    [recalculateSize] is among the calls made, and the cached layout is the
    one the layout engine gives for the model as it is at the return and the
    port counts the geometry holds.  For [onPortCountChanged] the calls end
    with the geometry's [updatePortCount] followed by the cascade, and the
    port counts the geometry holds are those of the model. *)
Theorem C4_geometry_recalculated `{Collaborators} (self : positive) (w w' : World) :
  (∃ i, propagateData self i w = Done tt w')
  ∨ onNodeSizeUpdated self w = Done tt w'
  ∨ onPortCountChanged self w = Done tt w' →
  ∃ n' es,
    nodes w' !! self = Some n'
    ∧ geometry_current n'
    ∧ trace w' = trace w ++ es
    ∧ RecalculateSize self ∈ es
    ∧ (onPortCountChanged self w = Done tt w' →
       (∃ es0, es = es0 ++ GeometryUpdatePortCount self :: cascade self)
       ∧ _nSources (_nodeGeometry n') = nPorts (_nodeDataModel n') PortType.Out
       ∧ _nSinks (_nodeGeometry n') = nPorts (_nodeDataModel n') PortType.In).
Proof.
  assert (∀ w w', onPortCountChanged self w = Done tt w' →
    ∃ n' es, nodes w' !! self = Some n' ∧ geometry_current n'
      ∧ trace w' = trace w ++ es ∧ RecalculateSize self ∈ es
      ∧ (∃ es0, es = es0 ++ GeometryUpdatePortCount self :: cascade self)
      ∧ _nSources (_nodeGeometry n') = nPorts (_nodeDataModel n') PortType.Out
      ∧ _nSinks (_nodeGeometry n') = nPorts (_nodeDataModel n') PortType.In) as Hports.
  { intros v v' Hrun. apply onPortCountChanged_inv in Hrun as (n & g & es & E & G & ->).
    eexists _, _. split; [cbn; by rewrite lookup_insert_eq|].
    split; [reflexivity|]. split; [reflexivity|]. split; [|split; [|done]].
    - apply elem_of_app. right. unfold cascade. set_solver.
    - eexists (es ++ [_]). by rewrite <- app_assoc. }
  intros [[i Hrun]|[Hrun|Hrun]].
  - apply propagateData_inv in Hrun as (n & g & d & es & E & G & ->).
    eexists _, _. split; [cbn; by rewrite lookup_insert_eq|].
    split; [reflexivity|]. split; [reflexivity|]. split.
    + apply elem_of_app. right. unfold cascade. set_solver.
    + intros Hrun. destruct (Hports _ _ Hrun) as (n' & es' & E' & _ & T' & _ & X).
      revert E' T'. cbn. rewrite lookup_insert_eq. intros [= <-] T'.
      apply app_inv_head in T'. by rewrite T'.
  - apply onNodeSizeUpdated_inv in Hrun as (n & es1 & es2 & E & ->).
    eexists _, _. split; [cbn; by rewrite lookup_insert_eq|].
    split; [reflexivity|]. split; [reflexivity|]. split.
    + set_solver.
    + intros Hrun. destruct (Hports _ _ Hrun) as (n' & es' & E' & _ & T' & _ & X).
      revert E' T'. cbn. rewrite lookup_insert_eq. intros [= <-] T'.
      apply app_inv_head in T'. by rewrite T'.
  - destruct (Hports _ _ Hrun) as (n' & es & E & C & T & R & X).
    exists n', es. split_and!; try done.
Qed.

(** C5. A node as the constructor leaves it has no graphics object; no
    member function other than [setGraphicsObject] attaches or detaches one,
    and [setGraphicsObject] with a graphics object attaches it.  On a node
    with a graphics object, [save], [restore], [reactToPossibleConnection],
    [resetReactionToConnection] and [recalculateVisuals] return normally and
    no fault of [propagateData] is the null graphics object.  On a node
    without one, each of the six stops in the null dereference of the
    graphics object ([propagateData] never returns; it reaches that
    dereference when its port index and connections are valid). *)
Theorem C5_graphics_object `{Collaborators} (self : positive) :
  (∀ dataModel w, ∃ w' n',
     Node_ctor self dataModel w = Done tt w'
     ∧ nodes w' !! self = Some n' ∧ _nodeGraphicsObject n' = None)
  ∧ (preserves same_attachment (Node_save self)
     ∧ (∀ json, preserves same_attachment (Node_restore self json))
     ∧ preserves same_attachment (Node_id self)
     ∧ (∀ portType dataType scenePoint,
          preserves same_attachment
            (reactToPossibleConnection self portType dataType scenePoint))
     ∧ preserves same_attachment (resetReactionToConnection self)
     ∧ (∀ i, preserves same_attachment (propagateData self i))
     ∧ (∀ index, preserves same_attachment (onDataUpdated self index))
     ∧ preserves same_attachment (onNodeSizeUpdated self)
     ∧ preserves same_attachment (onPortCountChanged self)
     ∧ preserves same_attachment (recalculateVisuals self))
  ∧ (∀ n g w, nodes w !! self = Some n → ∃ w' n',
       setGraphicsObject self (Some g) w = Done tt w'
       ∧ nodes w' !! self = Some n' ∧ _nodeGraphicsObject n' = Some g)
  ∧ (∀ n g w, nodes w !! self = Some n → _nodeGraphicsObject n = Some g →
       (∃ json, Node_save self w = Done json w)
       ∧ (∀ json, ∃ w', Node_restore self json w = Done tt w')
       ∧ (∀ portType dataType scenePoint, ∃ w',
            reactToPossibleConnection self portType dataType scenePoint w = Done tt w')
       ∧ (∃ w', resetReactionToConnection self w = Done tt w')
       ∧ (∃ w', recalculateVisuals self w = Done tt w')
       ∧ (∀ i f w', propagateData self i w = Crash f w' → f ≠ NullGraphicsObject))
  ∧ (∀ n w, nodes w !! self = Some n → _nodeGraphicsObject n = None →
       Node_save self w = Crash NullGraphicsObject w
       ∧ (∀ json, ∃ w', Node_restore self json w = Crash NullGraphicsObject w')
       ∧ (∀ portType dataType scenePoint,
            reactToPossibleConnection self portType dataType scenePoint w
            = Crash NullGraphicsObject w)
       ∧ (∃ w', resetReactionToConnection self w = Crash NullGraphicsObject w')
       ∧ recalculateVisuals self w = Crash NullGraphicsObject w
       ∧ (∀ i, is_crash (propagateData self i w))
       ∧ (∀ i cs srcs,
            connections (_nodeState n) PortType.In i = Some cs →
            mapM (incoming w) cs = Some srcs →
            ∃ w', propagateData self i w = Crash NullGraphicsObject w')).
Proof.
  split; [|split; [|split; [|split]]].
  - intros dataModel w. eexists _, _. split; [apply Node_ctor_Done|].
    split; [cbn; by rewrite lookup_insert_eq|reflexivity].
  - pose proof same_attachment_refl as R. pose proof same_attachment_trans as T.
    pose proof same_attachment_emit as Em. pose proof same_attachment_modify as Mo.
    split_and!; intros.
    + by apply preserves_Node_save.
    + apply same_attachment_Node_restore.
    + by apply preserves_Node_id.
    + by apply preserves_reactToPossibleConnection.
    + by apply preserves_resetReactionToConnection.
    + by apply preserves_propagateData.
    + by apply preserves_onDataUpdated.
    + by apply preserves_onNodeSizeUpdated.
    + by apply preserves_onPortCountChanged.
    + by apply preserves_recalculateVisuals.
  - intros n g w E. eexists _, _. split; [by apply setGraphicsObject_Done|].
    split; [cbn; by rewrite lookup_insert_eq|reflexivity].
  - intros n g w E G. split_and!.
    + eexists. exact (Node_save_Done self n g w E G).
    + intros json. eexists. exact (Node_restore_Done self json n g w E G).
    + intros portType dataType scenePoint. eexists.
      exact (reactToPossibleConnection_Done self _ _ _ n g w E G).
    + eexists. exact (resetReactionToConnection_Done self n g w E G).
    + eexists. exact (recalculateVisuals_Done self n g w E G).
    + intros i f w'. by apply (propagateData_attached self i n g).
  - intros n w E G. split_and!.
    + by apply (Node_save_null self n).
    + intros json. eexists. by apply Node_restore_null.
    + intros portType dataType scenePoint.
      by apply (reactToPossibleConnection_null _ _ _ _ n).
    + eexists. by apply resetReactionToConnection_null.
    + by apply (recalculateVisuals_null self n).
    + intros i. by apply (propagateData_bare self i n).
    + intros i cs srcs C S. eexists. by apply (propagateData_null self i n cs srcs).
Qed.

(** C6. The constructor draws a UUID from the generator and makes it the
    identifier of the node; [id()] returns the identifier; every member
    function except [restore] leaves the identifiers of all nodes untouched,
    creates no node and does not use the generator; [restore] replaces the
    identifier by what the UUID reader makes of the [id] member: the UUID
    itself when the member is a printed UUID, the null UUID when it is absent
    or not a string.  Two nodes constructed one after the other hold two
    successive results of the generator, so their identifiers differ exactly
    when these results differ: the constructor compares nothing.  Along any
    sequence of calls of the constructor and of the member functions other
    than [restore], the identifiers stay results of different draws, so they
    are unique as long as the generator has not returned a UUID twice.  Two
    nodes restored from the same JSON object have the same identifier. *)
Theorem C6_identifier `{Collaborators} :
  (∀ self dataModel w, ∃ w' n',
     Node_ctor self dataModel w = Done tt w'
     ∧ nodes w' !! self = Some n'
     ∧ _uid n' = entropy w (drawn w)
     ∧ drawn w' = S (drawn w) ∧ entropy w' = entropy w)
  ∧ (∀ self n w, nodes w !! self = Some n → Node_id self w = Done (_uid n) w)
  ∧ (∀ self,
       preserves ids_untouched (Node_save self)
       ∧ preserves ids_untouched (Node_id self)
       ∧ (∀ portType dataType scenePoint,
            preserves ids_untouched
              (reactToPossibleConnection self portType dataType scenePoint))
       ∧ preserves ids_untouched (resetReactionToConnection self)
       ∧ preserves ids_untouched (nodeGraphicsObject self)
       ∧ (∀ graphics, preserves ids_untouched (setGraphicsObject self graphics))
       ∧ (∀ i, preserves ids_untouched (propagateData self i))
       ∧ (∀ index, preserves ids_untouched (onDataUpdated self index))
       ∧ preserves ids_untouched (onNodeSizeUpdated self)
       ∧ preserves ids_untouched (onPortCountChanged self)
       ∧ preserves ids_untouched (recalculateVisuals self))
  ∧ (∀ self json n g w,
       nodes w !! self = Some n → _nodeGraphicsObject n = Some g →
       ∃ w' n',
         Node_restore self json w = Done tt w'
         ∧ nodes w' !! self = Some n'
         ∧ _uid n' = uuid_fromString (toString (value json "id"))
         ∧ (∀ u, json !! "id" = Some (JString (uuid_toString u)) → _uid n' = u)
         ∧ (no_string json "id" → _uid n' = null_uuid)
         ∧ ∀ p, p ≠ self → nodes w' !! p = nodes w !! p)
  ∧ (∀ a b modelA modelB w,
       a ≠ b →
       ∃ w' nA nB,
         (Node_ctor a modelA;; Node_ctor b modelB) w = Done tt w'
         ∧ nodes w' !! a = Some nA ∧ nodes w' !! b = Some nB
         ∧ _uid nA = entropy w (drawn w)
         ∧ _uid nB = entropy w (S (drawn w))
         ∧ (_uid nA ≠ _uid nB ↔ entropy w (drawn w) ≠ entropy w (S (drawn w))))
  ∧ (∀ w0 w,
       rtc member_call w0 w → drawn_ids w0 →
       drawn_ids w ∧ (no_repeat w → unique_ids w))
  ∧ (∀ a b json nA nB gA gB w,
       a ≠ b → nodes w !! a = Some nA → nodes w !! b = Some nB →
       _nodeGraphicsObject nA = Some gA → _nodeGraphicsObject nB = Some gB →
       ∃ w' nA' nB',
         (Node_restore a json;; Node_restore b json) w = Done tt w'
         ∧ nodes w' !! a = Some nA' ∧ nodes w' !! b = Some nB'
         ∧ _uid nA' = _uid nB').
Proof.
  split; [|split; [|split; [|split; [|split; [|split]]]]].
  - intros self dataModel w. eexists _, _. split; [apply Node_ctor_Done|].
    split; [cbn; by rewrite lookup_insert_eq|done].
  - intros self n w E. by apply Node_id_Done.
  - intros self.
    pose proof ids_untouched_refl as R. pose proof ids_untouched_trans as T.
    pose proof ids_untouched_emit as Em. pose proof ids_untouched_modify' as Mo.
    split_and!; intros.
    + by apply preserves_Node_save.
    + by apply preserves_Node_id.
    + by apply preserves_reactToPossibleConnection.
    + by apply preserves_resetReactionToConnection.
    + apply ids_untouched_nodeGraphicsObject.
    + apply ids_untouched_setGraphicsObject.
    + by apply preserves_propagateData.
    + by apply preserves_onDataUpdated.
    + by apply preserves_onNodeSizeUpdated.
    + by apply preserves_onPortCountChanged.
    + by apply preserves_recalculateVisuals.
  - intros self json n g w E G. eexists _, _.
    split; [exact (Node_restore_Done self json n g w E G)|].
    split; [cbn; by rewrite lookup_insert_eq|]. split; [reflexivity|].
    split; [|split].
    + intros u Hu. cbn [_uid]. unfold value. rewrite Hu.
      cbn [default from_option id toString]. apply uuid_fromString_toString.
    + intros Hn. cbn [_uid]. by rewrite (toString_no_string _ _ Hn).
    + intros p Hp. cbn. by rewrite lookup_insert_ne.
  - intros a b modelA modelB w Hab. eexists _, _, _.
    rewrite run_bind, Node_ctor_Done, Node_ctor_Done. split; [reflexivity|].
    cbn. rewrite lookup_insert_ne, lookup_insert_eq by done. rewrite lookup_insert_eq.
    split; [reflexivity|]. split; [reflexivity|]. done.
  - intros w0 w Hcalls Hd.
    pose proof (calls_drawn_ids w0 w Hcalls Hd) as Hd'.
    split; [exact Hd'|]. by apply drawn_ids_unique.
  - intros a b json nA nB gA gB w Hab EA EB GA GB. eexists _, _, _.
    rewrite run_bind, (Node_restore_Done a json nA gA w EA GA).
    erewrite (Node_restore_Done b json nB gB).
    + split; [reflexivity|]. cbn.
      rewrite lookup_insert_ne, lookup_insert_eq by done. rewrite lookup_insert_eq.
      split; [reflexivity|]. split; reflexivity.
    + cbn. by rewrite lookup_insert_ne.
    + done.
Qed.

(** C7. [onPortCountChanged] on a node with a graphics object, where for a
    port type the old count is the size of the table of the node state and
    the new count is the model's [nPorts] (both values of an [int]), every
    connection is registered at one port of its type only, and the
    connections at the removed ports are live: [killConnection] is
    emitted for the connections registered at the indices from the new count
    on, in table order, first for the input ports and then for the output
    ports; in the emissions for a port type a connection registered at an
    index at or above the new count occurs exactly once, and one registered
    below it does not occur.  After the emissions the node state's port
    counts are updated to the model's [nPorts], the geometry takes the new
    counts, and the cascade recalculates the visuals. *)
Theorem C7_onPortCountChanged `{Collaborators} (self : positive) (n : Node)
    (g : NodeGraphicsObject) (w : World) :
  nodes w !! self = Some n →
  _nodeGraphicsObject n = Some g →
  counts_fit n PortType.In →
  counts_fit n PortType.Out →
  NoDup (concat (getEntries (_nodeState n) PortType.In)).*2 →
  NoDup (concat (getEntries (_nodeState n) PortType.Out)).*2 →
  Forall (λ c, is_Some (conns w !! c)) (removed n PortType.In) →
  Forall (λ c, is_Some (conns w !! c)) (removed n PortType.Out) →
  let nIn := nPorts (_nodeDataModel n) PortType.In in
  let nOut := nPorts (_nodeDataModel n) PortType.Out in
  ∃ w' n' killsIn killsOut,
    onPortCountChanged self w = Done tt w'
    ∧ trace w' = trace w ++ killsIn ++ killsOut
                   ++ [StateUpdatePortCount self nIn nOut;
                       GeometryUpdatePortCount self] ++ cascade self
    ∧ killsIn = KillConnection self <$> removed n PortType.In
    ∧ killsOut = KillConnection self <$> removed n PortType.Out
    ∧ (∀ (index : nat) cs c,
         _inConnections (_nodeState n) !! index = Some cs → c ∈ cs.*2 →
         kill_count c killsIn = if decide (nIn ≤ Z.of_nat index) then 1%nat else 0%nat)
    ∧ (∀ (index : nat) cs c,
         _outConnections (_nodeState n) !! index = Some cs → c ∈ cs.*2 →
         kill_count c killsOut = if decide (nOut ≤ Z.of_nat index) then 1%nat else 0%nat)
    ∧ nodes w' !! self = Some n'
    ∧ _nodeDataModel n' = _nodeDataModel n
    ∧ _nodeState n' = NodeState_updatePortCount nIn nOut (_nodeState n)
    ∧ Z.of_nat (length (_inConnections (_nodeState n'))) = nIn
    ∧ Z.of_nat (length (_outConnections (_nodeState n'))) = nOut
    ∧ _nSinks (_nodeGeometry n') = nIn
    ∧ _nSources (_nodeGeometry n') = nOut
    ∧ geometry_current n'.
Proof.
  intros E G SI SO DI DO LI LO nIn nOut.
  eexists _, _, (KillConnection self <$> removed n PortType.In),
    (KillConnection self <$> removed n PortType.Out).
  split; [exact (onPortCountChanged_Done _ _ _ _ E G SI SO)|].
  split; [reflexivity|].
  split; [reflexivity|]. split; [reflexivity|].
  assert (∀ portType (index : nat) cs c,
    NoDup (concat (getEntries (_nodeState n) portType)).*2 →
    getEntries (_nodeState n) portType !! index = Some cs → c ∈ cs.*2 →
    kill_count c (KillConnection self <$> removed n portType)
    = if decide (nPorts (_nodeDataModel n) portType ≤ Z.of_nat index)
      then 1%nat else 0%nat) as Hcount.
  { intros portType index cs c Hd Hi Hc. case_decide.
    - apply kill_count_in; [by apply NoDup_removed|by eapply registered_removed].
    - apply kill_count_not_in. eapply registered_kept; [done..|lia]. }
  split; [intros index cs c; by apply (Hcount PortType.In)|].
  split; [intros index cs c; by apply (Hcount PortType.Out)|].
  split; [unfold add_trace, set_node; cbn [nodes]; by rewrite lookup_insert_eq|].
  destruct SI as [[HI _] _], SO as [[HO _] _].
  split; [reflexivity|]. split; [reflexivity|].
  split; [by apply length_resize_entries|]. split; [by apply length_resize_entries|].
  split; [reflexivity|]. split; reflexivity.
Qed.

(** C8. On a node with a graphics object, [restore] of the object that [save]
    has just returned succeeds and leaves the identifier and the position of
    the graphics object as they were (and the connection state and the
    geometry cache); when the data model's [restore] of its own [save] gives
    the model back, the whole node is as before. *)
Theorem C8_restore_save `{Collaborators} (self : positive) (n : Node)
    (g : NodeGraphicsObject) (w : World) :
  nodes w !! self = Some n →
  _nodeGraphicsObject n = Some g →
  ∃ json w' n' g',
    Node_save self w = Done json w
    ∧ Node_restore self json w = Done tt w'
    ∧ nodes w' !! self = Some n'
    ∧ _nodeGraphicsObject n' = Some g'
    ∧ _uid n' = _uid n
    ∧ pos g' = pos g
    ∧ _nodeState n' = _nodeState n
    ∧ _nodeGeometry n' = _nodeGeometry n
    ∧ (model_restore (model_save (_nodeDataModel n)) (_nodeDataModel n)
       = _nodeDataModel n → n' = n).
Proof.
  intros E G. eexists _, _, _, _.
  split; [exact (Node_save_Done _ _ _ _ E G)|].
  split; [exact (Node_restore_Done _ _ _ _ _ E G)|].
  split; [cbn; by rewrite lookup_insert_eq|].
  split; [reflexivity|].
  unfold restored_point, value. simplify_map_eq.
  cbn [_uid pos setPos _nodeState _nodeGeometry toString toObject toDouble default].
  simplify_map_eq. cbn [toDouble].
  split; [apply uuid_fromString_toString|].
  split; [by destruct (pos g)|]. split; [done|]. split; [done|].
  intros ->. rewrite uuid_fromString_toString. destruct n, g as [[] ?]. cbn in *.
  by subst.
Qed.

(** C9. [onDataUpdated(index)] on a node whose table has output port [index]
    and whose connections there are live: the model's [outData(index)] is
    called once, then [propagateData] is called with the value it gave on
    every connection registered at (Out, index), in the order of enumeration,
    and on no other connection; both heaps, and so the node's own state, are
    as before. *)
Theorem C9_onDataUpdated `{Collaborators} (self : positive) (index : PortIndex)
    (n : Node) (cs : list (QUuid * positive)) (w : World) :
  nodes w !! self = Some n →
  connections (_nodeState n) PortType.Out index = Some cs →
  Forall (λ c, is_Some (conns w !! c.2)) cs →
  ∃ w' es,
    onDataUpdated self index w = Done tt w'
    ∧ trace w' = trace w ++ es
    ∧ es = OutData self index
           :: ((λ c, ConnectionPropagateData c.2 (outData (_nodeDataModel n) index))
                 <$> cs)
    ∧ omap out_data_call es = [(self, index)]
    ∧ omap touched_connection es = cs.*2
    ∧ nodes w' = nodes w
    ∧ conns w' = conns w.
Proof.
  intros E C L. eexists _, _.
  split; [exact (onDataUpdated_Done _ _ _ _ _ E C L)|].
  split; [reflexivity|]. split; [reflexivity|].
  split; [|split; [|done]].
  - cbn. f_equal. clear. induction cs as [|c cs IH]; [done|]. exact IH.
  - cbn. clear. induction cs as [|c cs IH]; [done|]. cbn. by f_equal.
Qed.

(** * Further properties of Node.cpp *)

(** X1. [reactToPossibleConnection] on a node with a graphics object: the
    dragging position of the geometry becomes the scene point mapped through
    the inverse of the graphics object's scene transform, the node state
    reacts with the given port type and data type, and [update] is called
    once on the graphics object.  The identifier, the model, the table of
    connections, the cached layout and the graphics object are as before. *)
Theorem X1_reactToPossibleConnection `{Collaborators} (self : positive)
    (reactingPortType : PortType.t) (reactingDataType : NodeDataType)
    (scenePoint : QPointF) (n : Node) (g : NodeGraphicsObject) (w : World) :
  nodes w !! self = Some n →
  _nodeGraphicsObject n = Some g →
  ∃ w' n',
    reactToPossibleConnection self reactingPortType reactingDataType scenePoint w
    = Done tt w'
    ∧ nodes w' !! self = Some n'
    ∧ trace w' = trace w ++ [Update self]
    ∧ _draggingPos (_nodeGeometry n') = inverted_map (sceneTransform g) scenePoint
    ∧ _reaction (_nodeState n') = REACTING
    ∧ _reactingPortType (_nodeState n') = reactingPortType
    ∧ _reactingDataType (_nodeState n') = reactingDataType
    ∧ _inConnections (_nodeState n') = _inConnections (_nodeState n)
    ∧ _outConnections (_nodeState n') = _outConnections (_nodeState n)
    ∧ _layout (_nodeGeometry n') = _layout (_nodeGeometry n)
    ∧ _uid n' = _uid n
    ∧ _nodeDataModel n' = _nodeDataModel n
    ∧ _nodeGraphicsObject n' = Some g.
Proof.
  intros E G. eexists _, _.
  split; [exact (reactToPossibleConnection_Done self _ _ _ n g w E G)|].
  split; [cbn; by rewrite lookup_insert_eq|].
  split; [reflexivity|]. cbn. by rewrite G.
Qed.

(** X2. [reactToPossibleConnection] followed by [resetReactionToConnection],
    on a node with a graphics object: the node state no longer reacts (port
    type None, default data type) and keeps its table of connections, so a
    node that did not react before has its node state back; [update] was
    called twice; the dragging position stays where the reaction put it. *)
Theorem X2_react_then_reset `{Collaborators} (self : positive)
    (reactingPortType : PortType.t) (reactingDataType : NodeDataType)
    (scenePoint : QPointF) (n : Node) (g : NodeGraphicsObject) (w : World) :
  nodes w !! self = Some n →
  _nodeGraphicsObject n = Some g →
  ∃ w' n',
    (reactToPossibleConnection self reactingPortType reactingDataType scenePoint;;
     resetReactionToConnection self) w = Done tt w'
    ∧ nodes w' !! self = Some n'
    ∧ trace w' = trace w ++ [Update self; Update self]
    ∧ _nodeState n'
      = setReaction NOT_REACTING PortType.None defaultDataType (_nodeState n)
    ∧ (_reaction (_nodeState n) = NOT_REACTING →
       _reactingPortType (_nodeState n) = PortType.None →
       _reactingDataType (_nodeState n) = defaultDataType →
       _nodeState n' = _nodeState n)
    ∧ _draggingPos (_nodeGeometry n') = inverted_map (sceneTransform g) scenePoint.
Proof.
  intros E G. eexists _, _.
  rewrite run_bind, (reactToPossibleConnection_Done self _ _ _ n g w E G).
  erewrite resetReactionToConnection_Done;
    [|cbn; by rewrite lookup_insert_eq|cbn; exact G].
  split; [reflexivity|].
  split; [cbn; by rewrite lookup_insert_eq|].
  split; [cbn; by rewrite <- app_assoc|].
  split; [reflexivity|]. split; [|reflexivity].
  cbn. destruct (_nodeState n). cbn. by intros -> -> ->.
Qed.

(** X3. On a node without a graphics object the three functions stop at the
    null dereference at different points of their work:
    [reactToPossibleConnection] before it has changed anything;
    [resetReactionToConnection] after it has reset the reaction of the node
    state; [restore] after it has overwritten the identifier, and before the
    position is set or the model restored. *)
Theorem X3_partial_effects_without_graphics `{Collaborators} (self : positive)
    (n : Node) (w : World) :
  nodes w !! self = Some n →
  _nodeGraphicsObject n = None →
  (∀ portType dataType scenePoint,
     reactToPossibleConnection self portType dataType scenePoint w
     = Crash NullGraphicsObject w)
  ∧ (∃ w' n',
       resetReactionToConnection self w = Crash NullGraphicsObject w'
       ∧ nodes w' !! self = Some n'
       ∧ _nodeState n'
         = setReaction NOT_REACTING PortType.None defaultDataType (_nodeState n)
       ∧ trace w' = trace w)
  ∧ (∀ json, ∃ w' n',
       Node_restore self json w = Crash NullGraphicsObject w'
       ∧ nodes w' !! self = Some n'
       ∧ _uid n' = uuid_fromString (toString (value json "id"))
       ∧ _nodeDataModel n' = _nodeDataModel n
       ∧ trace w' = trace w).
Proof.
  intros E G. split; [|split].
  - intros portType dataType scenePoint.
    exact (reactToPossibleConnection_null self _ _ _ n w E G).
  - eexists _, _.
    split; [exact (resetReactionToConnection_null self n w E G)|].
    split; [cbn; by rewrite lookup_insert_eq|]. by split.
  - intros json. eexists _, _.
    split; [exact (Node_restore_null self json n w E G)|].
    split; [cbn; by rewrite lookup_insert_eq|]. by split_and!.
Qed.

(** X4. [onNodeSizeUpdated] needs no graphics object.  When the connections
    registered at the node are live it returns, having called [adjustSize]
    on the embedded widget if the model has one, then [recalculateSize], then
    [move] on every connection at the input ports and then on every
    connection at the output ports, in table order; it makes no call on the
    graphics object of the node, and the connections are as before. *)
Theorem X4_onNodeSizeUpdated `{Collaborators} (self : positive) (n : Node) (w : World) :
  nodes w !! self = Some n →
  Forall (λ c, is_Some (conns w !! c)) (registered n PortType.In) →
  Forall (λ c, is_Some (conns w !! c)) (registered n PortType.Out) →
  ∃ w' es,
    onNodeSizeUpdated self w = Done tt w'
    ∧ trace w' = trace w ++ es
    ∧ es = widget_calls self n ++ [RecalculateSize self]
           ++ (ConnectionMove <$> registered n PortType.In)
           ++ (ConnectionMove <$> registered n PortType.Out)
    ∧ omap touched_connection es
      = registered n PortType.In ++ registered n PortType.Out
    ∧ (∀ e, e ∈ es → e ≠ Update self ∧ e ≠ SetGeometryChanged self
                     ∧ e ≠ MoveConnections self)
    ∧ nodes w' !! self = Some (recalc (adjusted n))
    ∧ _nodeGraphicsObject (recalc (adjusted n)) = _nodeGraphicsObject n
    ∧ _nodeState (recalc (adjusted n)) = _nodeState n
    ∧ conns w' = conns w.
Proof.
  intros E LI LO. eexists _, _.
  split; [exact (onNodeSizeUpdated_Done self n w E LI LO)|].
  split; [reflexivity|]. split; [reflexivity|].
  assert (∀ l : list positive, omap touched_connection (ConnectionMove <$> l) = l)
    as Hmoves.
  { induction l as [|c l IH]; [done|]. cbn. by f_equal. }
  split_and!.
  - rewrite omap_app. cbn [omap list_omap touched_connection].
    rewrite omap_app, !Hmoves.
    unfold widget_calls. by destruct (embeddedWidget _).
  - intros e He. rewrite elem_of_app, elem_of_cons, elem_of_app in He.
    destruct He as [He|[->|[He|He]]].
    + unfold widget_calls in He. destruct (embeddedWidget _).
      * by apply list_elem_of_singleton in He as ->.
      * by apply elem_of_nil in He.
    + done.
    + apply list_elem_of_fmap in He as (c & -> & _). done.
    + apply list_elem_of_fmap in He as (c & -> & _). done.
  - cbn. by rewrite lookup_insert_eq.
  - unfold adjusted. by destruct (embeddedWidget _).
  - unfold adjusted. by destruct (embeddedWidget _).
  - reflexivity.
Qed.

(** X5. [setGraphicsObject] replaces the graphics object by the one given,
    detaching it when the argument is null, and recalculates the geometry:
    afterwards the cached layout is current, [nodeGraphicsObject()] returns
    the reference to what the pointer now holds, the object given or, after a
    null argument, no object (it forms the reference without reading through
    the pointer, so it returns in both cases and makes no call), and the
    identifier, the model and the node state are as before. *)
Theorem X5_setGraphicsObject `{Collaborators} (self : positive)
    (graphics : option NodeGraphicsObject) (n : Node) (w : World) :
  nodes w !! self = Some n →
  ∃ w' n',
    setGraphicsObject self graphics w = Done tt w'
    ∧ nodes w' !! self = Some n'
    ∧ _nodeGraphicsObject n' = graphics
    ∧ geometry_current n'
    ∧ trace w' = trace w ++ [RecalculateSize self]
    ∧ nodeGraphicsObject self w' = Done graphics w'
    ∧ _uid n' = _uid n
    ∧ _nodeDataModel n' = _nodeDataModel n
    ∧ _nodeState n' = _nodeState n.
Proof.
  intros E. eexists _, _.
  split; [exact (setGraphicsObject_Done self graphics n w E)|].
  split; [cbn; by rewrite lookup_insert_eq|].
  split; [reflexivity|]. split; [reflexivity|]. split; [reflexivity|].
  split; [|done].
  unfold nodeGraphicsObject, this, deref_node.
  rewrite run_bind. cbn [nodes add_trace set_node]. by rewrite lookup_insert_eq.
Qed.

(** X6. The constructor, for a node at an address to which no signal is
    connected yet: the node holds the model given, the UUID drawn from the
    generator and no graphics object, its cached layout is current, and the
    calls made are one [recalculateSize] and the two [connect]s.  From then
    on the model's [dataUpdated] runs [onDataUpdated] and its
    [embeddedWidgetSizeUpdated] runs [onNodeSizeUpdated], while its
    [portCountChanged] runs nothing. *)
Theorem X6_constructor `{Collaborators} (self : positive) (dataModel : Model)
    (w : World) :
  Forall (λ e, e.1.1 ≠ self) (wiring w) →
  ∃ w' n',
    Node_ctor self dataModel w = Done tt w'
    ∧ nodes w' !! self = Some n'
    ∧ _nodeDataModel n' = dataModel
    ∧ _uid n' = entropy w (drawn w)
    ∧ _nodeGraphicsObject n' = None
    ∧ geometry_current n'
    ∧ trace w' = trace w ++ [RecalculateSize self;
                             Connect self dataUpdated onDataUpdated_slot;
                             Connect self embeddedWidgetSizeUpdated
                                     onNodeSizeUpdated_slot]
    ∧ (∀ index, deliver self dataUpdated index w' = onDataUpdated self index w')
    ∧ (∀ index, deliver self embeddedWidgetSizeUpdated index w'
                = onNodeSizeUpdated self w')
    ∧ (∀ index, deliver self portCountChanged index w' = Done tt w').
Proof.
  intros Hw. eexists _, _. split; [apply Node_ctor_Done|].
  split; [cbn; by rewrite lookup_insert_eq|].
  do 5 (split; [reflexivity|]).
  assert (∀ signal,
    List.filter (λ e : positive * Signal * Slot,
                   Pos.eqb e.1.1 self && Signal_eqb e.1.2 signal) (wiring w) = [])
    as Hold.
  { intros signal. induction Hw as [|e l He _ IH]; [done|]. cbn.
    destruct (Pos.eqb_spec e.1.1 self); [done|]. exact IH. }
  split_and!; intros index; unfold deliver; cbn [wiring];
    rewrite List.filter_app, Hold; cbn [app List.filter fst snd Signal_eqb];
    rewrite Pos.eqb_refl; cbn [andb for_each]; try reflexivity;
    apply bind_ret_unit.
Qed.

(** X7. [recalculateVisuals] on a node with a graphics object makes the four
    calls setGeometryChanged, recalculateSize, update, moveConnections in
    this order and changes nothing of the node but the cached layout, which
    becomes current; run a second time it makes the same calls and leaves
    every node as the first run left it. *)
Theorem X7_recalculateVisuals_again `{Collaborators} (self : positive) (n : Node)
    (g : NodeGraphicsObject) (w : World) :
  nodes w !! self = Some n →
  _nodeGraphicsObject n = Some g →
  ∃ w1 w2 n1,
    recalculateVisuals self w = Done tt w1
    ∧ recalculateVisuals self w1 = Done tt w2
    ∧ trace w1 = trace w ++ [SetGeometryChanged self; RecalculateSize self;
                             Update self; MoveConnections self]
    ∧ trace w2 = trace w1 ++ [SetGeometryChanged self; RecalculateSize self;
                              Update self; MoveConnections self]
    ∧ nodes w1 !! self = Some n1
    ∧ geometry_current n1
    ∧ n1 = with_geometry
             (mkNodeGeometry (_layout (_nodeGeometry n1)) (_nSources (_nodeGeometry n))
                             (_nSinks (_nodeGeometry n)) (_draggingPos (_nodeGeometry n)))
             n
    ∧ nodes w2 = nodes w1.
Proof.
  intros E G. eexists _, _, _.
  split; [exact (recalculateVisuals_Done self n g w E G)|].
  split; [apply (recalculateVisuals_Done self (recalc n) g);
          [cbn; by rewrite lookup_insert_eq|exact G]|].
  split; [reflexivity|]. split; [reflexivity|].
  split; [cbn; by rewrite lookup_insert_eq|].
  split; [reflexivity|]. split; [reflexivity|].
  cbn. by rewrite insert_insert_eq.
Qed.

(** X8. When [propagateData] stops at a fault other than the null graphics
    object (a port index outside the table, a connection pointer that is
    dead, a connection whose output end is not attached), the model has been
    given nothing: every call made is an [outData] of an upstream model, and
    both heaps are as before. *)
Theorem X8_propagateData_stops_before_setInData `{Collaborators} (self : positive)
    (i : PortIndex) (f : Fault) (w w' : World) :
  propagateData self i w = Crash f w' →
  f ≠ NullGraphicsObject →
  ∃ es,
    trace w' = trace w ++ es
    ∧ Forall (λ e, is_Some (out_data_call e)) es
    ∧ (∀ d port, SetInData self d port ∉ es)
    ∧ nodes w' = nodes w
    ∧ conns w' = conns w.
Proof.
  intros Hrun Hf. destruct (propagateData_stops self i f w w' Hrun Hf) as (es & -> & Hall).
  exists es. split; [reflexivity|]. split; [exact Hall|]. split; [|done].
  intros d port Hin. rewrite Forall_forall in Hall.
  pose proof (Hall _ Hin) as Hs. cbn in Hs. by apply is_Some_None in Hs.
Qed.

(** X9. [onDataUpdated] with a port index outside the table of output
    connections: the model's [outData(index)] has been called when the
    lookup of the connections stops the function, and no connection has been
    called. *)
Theorem X9_onDataUpdated_out_of_range `{Collaborators} (self : positive)
    (index : PortIndex) (n : Node) (w : World) :
  nodes w !! self = Some n →
  (index < 0 ∨ Z.of_nat (length (_outConnections (_nodeState n))) ≤ index) →
  ∃ w',
    onDataUpdated self index w = Crash IndexOutOfRange w'
    ∧ trace w' = trace w ++ [OutData self index]
    ∧ nodes w' = nodes w
    ∧ conns w' = conns w.
Proof.
  intros E Hi.
  assert (connections (_nodeState n) PortType.Out index = None) as C.
  { unfold connections, at_index. cbn [getEntries].
    destruct (Z.ltb_spec index 0) as [|Hge]; [done|].
    apply lookup_ge_None. lia. }
  eexists. split; [exact (onDataUpdated_out_of_range self index n w E C)|done].
Qed.

(** X10. [onPortCountChanged] on a node with a graphics object whose model
    has, for both port types, at least as many ports as the table has
    entries: no [killConnection] is emitted, whatever the connections
    registered, and the calls are the two [updatePortCount]s and the
    cascade. *)
Theorem X10_onPortCountChanged_no_removal `{Collaborators} (self : positive)
    (n : Node) (g : NodeGraphicsObject) (w : World) :
  nodes w !! self = Some n →
  _nodeGraphicsObject n = Some g →
  counts_fit n PortType.In →
  counts_fit n PortType.Out →
  Z.of_nat (length (_inConnections (_nodeState n)))
    ≤ nPorts (_nodeDataModel n) PortType.In →
  Z.of_nat (length (_outConnections (_nodeState n)))
    ≤ nPorts (_nodeDataModel n) PortType.Out →
  ∃ w',
    onPortCountChanged self w = Done tt w'
    ∧ trace w' = trace w
                 ++ [StateUpdatePortCount self (nPorts (_nodeDataModel n) PortType.In)
                                               (nPorts (_nodeDataModel n) PortType.Out);
                     GeometryUpdatePortCount self;
                     SetGeometryChanged self; RecalculateSize self;
                     Update self; MoveConnections self]
    ∧ (∀ c, kill_count c (drop (length (trace w)) (trace w')) = 0%nat)
    ∧ nodes w' !! self = Some (recalc (recounted n)).
Proof.
  intros E G FI FO HI HO.
  pose proof (removed_nil n PortType.In HI) as RI.
  pose proof (removed_nil n PortType.Out HO) as RO.
  eexists. split.
  - apply (onPortCountChanged_Done self n g w E G FI FO).
  - rewrite RI, RO. split; [reflexivity|]. split; [|cbn; by rewrite lookup_insert_eq].
    intros c. cbn [trace add_trace fmap list_fmap app].
    by rewrite drop_app_length.
Qed.

(** X11. [onPortCountChanged] needs the graphics object only at its end: on
    a node without one (port counts values of an [int], connections at the
    removed ports live) every [killConnection] has been emitted and the port
    counts of the node state and of the geometry have been updated when the
    function stops at the null dereference, before any call of the
    cascade. *)
Theorem X11_onPortCountChanged_without_graphics `{Collaborators} (self : positive)
    (n : Node) (w : World) :
  nodes w !! self = Some n →
  _nodeGraphicsObject n = None →
  counts_fit n PortType.In →
  counts_fit n PortType.Out →
  Forall (λ c, is_Some (conns w !! c)) (removed n PortType.In) →
  Forall (λ c, is_Some (conns w !! c)) (removed n PortType.Out) →
  ∃ w',
    onPortCountChanged self w = Crash NullGraphicsObject w'
    ∧ trace w' = trace w
                 ++ (KillConnection self <$> removed n PortType.In)
                 ++ (KillConnection self <$> removed n PortType.Out)
                 ++ [StateUpdatePortCount self (nPorts (_nodeDataModel n) PortType.In)
                                               (nPorts (_nodeDataModel n) PortType.Out);
                     GeometryUpdatePortCount self]
    ∧ nodes w' !! self = Some (recounted n)
    ∧ _nSinks (_nodeGeometry (recounted n)) = nPorts (_nodeDataModel n) PortType.In
    ∧ _nSources (_nodeGeometry (recounted n)) = nPorts (_nodeDataModel n) PortType.Out
    ∧ _layout (_nodeGeometry (recounted n)) = _layout (_nodeGeometry n).
Proof.
  intros E G FI FO LI LO. eexists.
  split; [exact (onPortCountChanged_bare self n w E G FI FO)|].
  split; [reflexivity|]. split; [cbn; by rewrite lookup_insert_eq|done].
Qed.

(** X12. [restore] followed by [save], on a node with a graphics object: the
    saved object carries the identifier that [restore] read, printed in the
    canonical form, the coordinates that [restore] read, and what the model
    saves after its own [restore].  So an [id] member that is a printed UUID
    and a [position] member made of the numbers [x] and [y] come back as they
    were, and an [id] member that is absent or not a string comes back as the
    printed null UUID. *)
Theorem X12_save_after_restore `{Collaborators} (self : positive)
    (json : QJsonObject) (n : Node) (g : NodeGraphicsObject) (w : World) :
  nodes w !! self = Some n →
  _nodeGraphicsObject n = Some g →
  ∃ w' (saved position : QJsonObject),
    (Node_restore self json;; Node_save self) w = Done saved w'
    ∧ saved !! "id"
      = Some (JString (uuid_toString (uuid_fromString (toString (value json "id")))))
    ∧ saved !! "position" = Some (JObject position)
    ∧ position = <["y" := JDouble (py (restored_point json))]>
                   (<["x" := JDouble (px (restored_point json))]> ∅)
    ∧ saved !! "model"
      = Some (JObject (model_save
                         (model_restore (toObject (value json "model"))
                                        (_nodeDataModel n))))
    ∧ (∀ u, json !! "id" = Some (JString (uuid_toString u)) →
            saved !! "id" = json !! "id")
    ∧ (∀ x y, json !! "position"
              = Some (JObject (<["y" := JDouble y]> (<["x" := JDouble x]> ∅))) →
              saved !! "position" = json !! "position")
    ∧ (no_string json "id" →
       saved !! "id" = Some (JString "{00000000-0000-0000-0000-000000000000}")).
Proof.
  intros E G. eexists _, _, _.
  rewrite run_bind, (Node_restore_Done self json n g w E G).
  erewrite Node_save_Done; [|cbn; by rewrite lookup_insert_eq|reflexivity].
  split; [reflexivity|].
  cbn [_uid _nodeDataModel pos setPos].
  split; [by simplify_map_eq|]. split; [by simplify_map_eq|].
  split; [reflexivity|]. split; [by simplify_map_eq|].
  split_and!.
  - intros u Hu. rewrite !lookup_insert_ne, lookup_insert_eq by done.
    unfold value. rewrite Hu. cbn -[uuid_fromString uuid_toString].
    by rewrite uuid_fromString_toString.
  - intros x y Hp. rewrite lookup_insert_eq, Hp.
    unfold restored_point, value. rewrite Hp. cbn [default from_option id toObject px py].
    rewrite lookup_insert_eq, lookup_insert_ne, lookup_insert_eq by done.
    reflexivity.
  - intros Hn. rewrite !lookup_insert_ne, lookup_insert_eq by done.
    by rewrite (toString_no_string _ _ Hn).
Qed.


(** * Runs on the sample scene *)

Section Runs.
#[local] Existing Instance Sample.collaborators.

(** In the sample scene both connections into port 0 of node 2 come from
    output 0 of node 1, whose value is 7; connection 10 converts it to 8. *)
Lemma C1_propagateData_witness :
  ∃ w', propagateData 2 0 Sample.scene = Done tt w'
        ∧ trace w' = [OutData 1 0; OutData 1 0; SetInData 2 [8; 7] 0;
                      SetGeometryChanged 2; RecalculateSize 2; Update 2;
                      MoveConnections 2;
                      SetGeometryChanged 2; RecalculateSize 2; Update 2;
                      MoveConnections 2].
Proof.
  destruct (C1_propagateData 2 0 Sample.sink Sample.sink_graphics Sample.wires
              Sample.sources Sample.scene)
    as (w' & Hrun & Htrace & _); [reflexivity..|].
  exists w'. split; [exact Hrun | exact Htrace].
Defined.


(** The object saved for node 2. *)
Lemma C3_save_format_witness :
  ∃ json position : QJsonObject,
    Node_save 2 Sample.scene = Done json Sample.scene
    ∧ json !! "id" = Some (JString "{00000000-0000-4000-8000-0000000000a2}")
    ∧ json !! "position" = Some (JObject position)
    ∧ position !! "x" = Some (JDouble 40)
    ∧ position !! "y" = Some (JDouble 50).
Proof.
  destruct (C3_save_format 2 Sample.sink Sample.sink_graphics Sample.scene)
    as (json & position & Hrun & _ & Hid & _ & Hpos & _ & Hx & Hy); [reflexivity..|].
  exists json, position. split; [exact Hrun|].
  split; [exact Hid|]. split; [exact Hpos|]. split; [exact Hx | exact Hy].
Defined.

(** After the embedded widget of node 2 has changed its size, the cached
    layout is the current one. *)
Lemma C4_geometry_recalculated_witness :
  ∃ n', nodes (final (onNodeSizeUpdated 2 Sample.scene)) !! 2%positive = Some n'
        ∧ geometry_current n'.
Proof.
  destruct (C4_geometry_recalculated 2 Sample.scene
              (final (onNodeSizeUpdated 2 Sample.scene)))
    as (n' & es & Hn & Hcurrent & _).
  - right. left. vm_compute. reflexivity.
  - exists n'. split; [exact Hn | exact Hcurrent].
Defined.

(** Node 2 before and after a graphics object is attached. *)
Lemma C5_graphics_object_witness :
  Node_save 2 Sample.scene_bare = Crash NullGraphicsObject Sample.scene_bare
  ∧ ∃ json, Node_save 2 Sample.scene = Done json Sample.scene.
Proof.
  destruct (C5_graphics_object (H := Sample.collaborators) 2)
    as (_ & _ & _ & Hattached & Hbare).
  split.
  - apply (Hbare Sample.bare_sink Sample.scene_bare);
      reflexivity.
  - apply (Hattached Sample.sink Sample.sink_graphics Sample.scene); reflexivity.
Defined.

(** Two nodes constructed in an empty scene, the second then given a graphics
    object: their identifiers differ, the generator having returned two
    different UUIDs. *)
Lemma C6_identifier_witness :
  ∃ w',
    (Node_ctor 1 Sample.sink_model;; Node_ctor 2 Sample.sink_model;;
     setGraphicsObject 2 (Some Sample.sink_graphics)) Sample.blank
    = Done tt w'
    ∧ unique_ids w'.
Proof.
  destruct (C6_identifier (H := Sample.collaborators))
    as (_ & _ & _ & _ & _ & Hcalls & _).
  eexists. split.
  - rewrite run_bind, Node_ctor_Done, run_bind, Node_ctor_Done.
    apply setGraphicsObject_Done. cbn [nodes]. apply lookup_insert_eq.
  - refine (proj2 (Hcalls Sample.blank _ _ _) _).
    + eapply rtc_l;
        [eapply (call_ctor (H := Sample.collaborators) 1 Sample.sink_model);
         [apply lookup_empty|apply Node_ctor_Done]|].
      eapply rtc_l;
        [eapply (call_ctor (H := Sample.collaborators) 2 Sample.sink_model);
         [|apply Node_ctor_Done]|].
      { cbn [nodes]. rewrite lookup_insert_ne by done. apply lookup_empty. }
      eapply rtc_l;
        [eapply (call_setGraphicsObject 2), setGraphicsObject_Done;
         cbn [nodes]; apply lookup_insert_eq|].
      apply rtc_refl.
    + exists (λ _, 0%nat). split; [|intros p q [n E]]; by intros.
    + intros i j Hij. unfold Sample.blank in *.
      cbn [drawn entropy add_trace set_node] in *.
      assert (i = 0%nat ∧ j = 1%nat) as [-> ->] by lia.
      discriminate.
Defined.

(** With a generator that returns the same UUID twice, two nodes constructed
    one after the other have the same identifier. *)
Lemma C6_repeated_uuid :
  ∃ w' nA nB,
    (Node_ctor 1 Sample.sink_model;; Node_ctor 2 Sample.sink_model)
      Sample.blank_stuck
    = Done tt w'
    ∧ nodes w' !! 1%positive = Some nA ∧ nodes w' !! 2%positive = Some nB
    ∧ _uid nA = _uid nB.
Proof.
  eexists _, _, _. rewrite run_bind, Node_ctor_Done, Node_ctor_Done.
  split; [reflexivity|]. cbn [nodes].
  rewrite lookup_insert_ne, lookup_insert_eq by done. rewrite lookup_insert_eq.
  split_and!; reflexivity.
Qed.
(** In the scene where the model of node 2 has dropped its input port, both
    connections into that port are killed, once each. *)
Lemma C7_onPortCountChanged_witness :
  ∃ w', onPortCountChanged 2 Sample.scene_shrunk = Done tt w'
        ∧ trace w' = [KillConnection 2 10; KillConnection 2 11;
                      StateUpdatePortCount 2 0 1; GeometryUpdatePortCount 2;
                      SetGeometryChanged 2; RecalculateSize 2; Update 2;
                      MoveConnections 2].
Proof.
  destruct (C7_onPortCountChanged 2 Sample.shrunk_sink Sample.sink_graphics
              Sample.scene_shrunk)
    as (w' & n' & killsIn & killsOut & Hrun & Htrace & -> & -> & _);
    try reflexivity.
  - split; [cbn; lia | cbn; lia].
  - split; [cbn; lia | cbn; lia].
  - apply (bool_decide_unpack _). reflexivity.
  - cbn. apply NoDup_nil_2.
  - repeat constructor; by eexists.
  - constructor.
  - exists w'. split; [exact Hrun | exact Htrace].
Defined.

(** Saving node 2 and restoring what was saved gives node 2 back. *)
Lemma C8_restore_save_witness :
  ∃ json w',
    Node_save 2 Sample.scene = Done json Sample.scene
    ∧ Node_restore 2 json Sample.scene = Done tt w'
    ∧ nodes w' !! 2%positive = Some Sample.sink.
Proof.
  destruct (C8_restore_save 2 Sample.sink Sample.sink_graphics Sample.scene)
    as (json & w' & n' & g' & Hsave & Hrestore & Hn & _ & _ & _ & _ & _ & Hsame);
    [reflexivity..|].
  exists json, w'. split; [exact Hsave|]. split; [exact Hrestore|].
  rewrite Hn, Hsame; reflexivity.
Defined.

(** Node 1 updates output 0: its value 7 goes to the connections 10 and 11. *)
Lemma C9_onDataUpdated_witness :
  ∃ w', onDataUpdated 1 0 Sample.scene = Done tt w'
        ∧ trace w' = [OutData 1 0; ConnectionPropagateData 10 7;
                      ConnectionPropagateData 11 7]
        ∧ nodes w' = nodes Sample.scene.
Proof.
  destruct (C9_onDataUpdated 1 0 Sample.source Sample.wires Sample.scene)
    as (w' & es & Hrun & Htrace & -> & _ & _ & Hnodes & _); [reflexivity..| |].
  - repeat constructor; by eexists.
  - exists w'. split; [exact Hrun|]. split; [exact Htrace | exact Hnodes].
Defined.

(** Dragging a connection of type "int" over node 2 at the scene point
    (3, 4). *)
Lemma X1_reactToPossibleConnection_witness :
  ∃ w' n',
    reactToPossibleConnection 2 PortType.In Sample.int_type Sample.drag_point
      Sample.scene = Done tt w'
    ∧ nodes w' !! 2%positive = Some n'
    ∧ _draggingPos (_nodeGeometry n') = Sample.drag_point
    ∧ _reaction (_nodeState n') = REACTING.
Proof.
  destruct (X1_reactToPossibleConnection 2 PortType.In Sample.int_type
              Sample.drag_point Sample.sink Sample.sink_graphics Sample.scene)
    as (w' & n' & Hrun & Hn & _ & Hdrag & Hreact & _); [reflexivity..|].
  exists w', n'. split; [exact Hrun|]. split; [exact Hn|].
  split; [exact Hdrag | exact Hreact].
Defined.

(** After the drag has left node 2 its node state is what it was. *)
Lemma X2_react_then_reset_witness :
  ∃ w' n',
    (reactToPossibleConnection 2 PortType.In Sample.int_type Sample.drag_point;;
     resetReactionToConnection 2) Sample.scene = Done tt w'
    ∧ nodes w' !! 2%positive = Some n'
    ∧ _nodeState n' = _nodeState Sample.sink
    ∧ _draggingPos (_nodeGeometry n') = Sample.drag_point.
Proof.
  destruct (X2_react_then_reset 2 PortType.In Sample.int_type Sample.drag_point
              Sample.sink Sample.sink_graphics Sample.scene)
    as (w' & n' & Hrun & Hn & _ & _ & Hback & Hdrag); [reflexivity..|].
  exists w', n'. split; [exact Hrun|]. split; [exact Hn|].
  split; [apply Hback; reflexivity | exact Hdrag].
Defined.

(** Restoring the empty object into node 2 before its graphics object is
    attached leaves it with the null UUID. *)
Lemma X3_partial_effects_without_graphics_witness :
  ∃ w' n',
    Node_restore 2 ∅ Sample.scene_bare = Crash NullGraphicsObject w'
    ∧ nodes w' !! 2%positive = Some n'
    ∧ _uid n' = null_uuid.
Proof.
  destruct (X3_partial_effects_without_graphics 2 Sample.bare_sink Sample.scene_bare)
    as (_ & _ & Hrestore); [reflexivity..|].
  destruct (Hrestore ∅) as (w' & n' & Hrun & Hn & Hid & _).
  exists w', n'. split; [exact Hrun|]. split; [exact Hn | exact Hid].
Defined.

(** The widget of node 2 changes its size before a graphics object is
    attached. *)
Lemma X4_onNodeSizeUpdated_witness :
  ∃ w', onNodeSizeUpdated 2 Sample.scene_bare = Done tt w'
        ∧ trace w' = [AdjustSize 2; RecalculateSize 2;
                      ConnectionMove 10; ConnectionMove 11].
Proof.
  destruct (X4_onNodeSizeUpdated 2 Sample.bare_sink Sample.scene_bare)
    as (w' & es & Hrun & Htrace & -> & _); [reflexivity| | |].
  - repeat constructor; by eexists.
  - constructor.
  - exists w'. split; [exact Hrun | exact Htrace].
Defined.

(** Detaching the graphics object of node 2. *)
Lemma X5_setGraphicsObject_witness :
  ∃ w', setGraphicsObject 2 None Sample.scene = Done tt w'
        ∧ nodeGraphicsObject 2 w' = Done None w'.
Proof.
  destruct (X5_setGraphicsObject 2 None Sample.sink Sample.scene)
    as (w' & n' & Hrun & _ & _ & _ & _ & Hget & _); [reflexivity|].
  exists w'. split; [exact Hrun | exact Hget].
Defined.

(** A third node constructed in the sample scene. *)
Lemma X6_constructor_witness :
  ∃ w' n',
    Node_ctor 3 Sample.sink_model Sample.scene = Done tt w'
    ∧ nodes w' !! 3%positive = Some n'
    ∧ _nodeGraphicsObject n' = None
    ∧ deliver 3 portCountChanged 0 w' = Done tt w'.
Proof.
  destruct (X6_constructor (H := Sample.collaborators) 3 Sample.sink_model
              Sample.scene)
    as (w' & n' & Hrun & Hn & _ & _ & Hbare & _ & _ & _ & _ & Hports).
  - repeat constructor. discriminate.
  - exists w', n'. split; [exact Hrun|]. split; [exact Hn|].
    split; [exact Hbare | exact (Hports 0)].
Defined.

(** The cascade run twice on node 2. *)
Lemma X7_recalculateVisuals_again_witness :
  ∃ w1 w2,
    recalculateVisuals 2 Sample.scene = Done tt w1
    ∧ recalculateVisuals 2 w1 = Done tt w2
    ∧ nodes w2 = nodes w1.
Proof.
  destruct (X7_recalculateVisuals_again 2 Sample.sink Sample.sink_graphics Sample.scene)
    as (w1 & w2 & n1 & Hfirst & Hsecond & _ & _ & _ & _ & _ & Hsame);
    [reflexivity..|].
  exists w1, w2. split; [exact Hfirst|]. split; [exact Hsecond | exact Hsame].
Defined.

(** While connection 11 is a draft, [propagateData] on port 0 of node 2
    stops at its missing output end, after the [outData] for connection 10. *)
Lemma X8_propagateData_stops_before_setInData_witness :
  ∃ es, trace (final (propagateData 2 0 Sample.scene_draft)) = es
        ∧ Forall (λ e, is_Some (out_data_call e)) es
        ∧ nodes (final (propagateData 2 0 Sample.scene_draft))
          = nodes Sample.scene_draft.
Proof.
  destruct (X8_propagateData_stops_before_setInData 2 0 NullNode Sample.scene_draft
              (final (propagateData 2 0 Sample.scene_draft)))
    as (es & Htrace & Hall & _ & Hnodes & _).
  - vm_compute. reflexivity.
  - discriminate.
  - exists es. split; [exact Htrace|]. split; [exact Hall | exact Hnodes].
Defined.

(** Node 1 has one output port; an update of port 5 stops after [outData]. *)
Lemma X9_onDataUpdated_out_of_range_witness :
  ∃ w', onDataUpdated 1 5 Sample.scene = Crash IndexOutOfRange w'
        ∧ trace w' = [OutData 1 5].
Proof.
  destruct (X9_onDataUpdated_out_of_range 1 5 Sample.source Sample.scene)
    as (w' & Hrun & Htrace & _); [reflexivity| |].
  - right. cbn. lia.
  - exists w'. split; [exact Hrun | exact Htrace].
Defined.

(** Node 2 with its port counts unchanged: no connection is killed. *)
Lemma X10_onPortCountChanged_no_removal_witness :
  ∃ w', onPortCountChanged 2 Sample.scene = Done tt w'
        ∧ trace w' = [StateUpdatePortCount 2 1 1; GeometryUpdatePortCount 2;
                      SetGeometryChanged 2; RecalculateSize 2; Update 2;
                      MoveConnections 2].
Proof.
  destruct (X10_onPortCountChanged_no_removal 2 Sample.sink Sample.sink_graphics
              Sample.scene)
    as (w' & Hrun & Htrace & _); try reflexivity.
  - split; cbn; lia.
  - split; cbn; lia.
  - exists w'. split; [exact Hrun | exact Htrace].
Defined.

(** Node 2 without a graphics object, its model having dropped the input
    port: the connections are killed and the counts updated before the
    fault. *)
Lemma X11_onPortCountChanged_without_graphics_witness :
  ∃ w', onPortCountChanged 2 Sample.scene_bare_shrunk = Crash NullGraphicsObject w'
        ∧ trace w' = [KillConnection 2 10; KillConnection 2 11;
                      StateUpdatePortCount 2 0 1; GeometryUpdatePortCount 2].
Proof.
  destruct (X11_onPortCountChanged_without_graphics 2 Sample.bare_shrunk_sink
              Sample.scene_bare_shrunk)
    as (w' & Hrun & Htrace & _); try reflexivity.
  - split; cbn; lia.
  - split; cbn; lia.
  - repeat constructor; by eexists.
  - constructor.
  - exists w'. split; [exact Hrun | exact Htrace].
Defined.

(** An identifier written in capitals without braces is saved back in the
    canonical form. *)
Lemma X12_save_after_restore_witness :
  ∃ w' (saved : QJsonObject),
    (Node_restore 2 Sample.foreign_json;; Node_save 2) Sample.scene = Done saved w'
    ∧ saved !! "id" = Some (JString "{6f9619ff-8b86-d011-b42d-00c04fc964ff}").
Proof.
  destruct (X12_save_after_restore 2 Sample.foreign_json Sample.sink
              Sample.sink_graphics Sample.scene)
    as (w' & saved & position & Hrun & Hid & _); [reflexivity..|].
  exists w', saved. split; [exact Hrun | exact Hid].
Defined.


End Runs.
